(** * aix.router.ts : chatGenerateContent

    A shallow embedding of the tRPC mutation [chatGenerateContent] of
    [src/modules/aix/server/api/aix.router.ts], the pipeline that builds a
    provider request, fetches it, and pumps the answer back to the client
    as a sequence of yielded events.

    The mutation is an [async function*]: what it produces is the sequence of
    values it yields.  The embedding runs it in a small state-and-trace monad:
    the state holds the two objects the mutation creates ([IntakeHandler],
    [PartTransmitter]); the trace records, in order, every yield and the calls
    to the collaborators.  The inbound stream is given by the finite list of
    the outcomes of its reads. *)

From Stdlib Require Import String Ascii List Bool ZArith.
Import ListNotations.
Local Open Scope string_scope.

Set Implicit Arguments.

(** ** JavaScript values *)

(** A value thrown by a collaborator, seen through what the router reads of it:
    [error.name], the result of [safeErrorString(error)] (a string or null), and
    [JSON.stringify(error.cause)] when [error.cause] is truthy. *)
Record JsError : Type := mkJsError {
  error_name : option string;
  error_safeString : option string;
  error_cause : option string
}.

(** The result of a call that may throw. *)
Inductive Try (A : Type) : Type :=
| Returns (a : A)
| Throws (error : JsError).
Arguments Throws {A} error.

(** Truthiness of a [string | null | undefined]. *)
Definition truthy (s : option string) : bool :=
  match s with
  | Some (String _ _) => true
  | _ => false
  end.

(** [s || dflt] *)
Definition orElse (s : option string) (dflt : string) : string :=
  match s with
  | Some (String c r) => String c r
  | _ => dflt
  end.

(** A [string | null] in a string concatenation. *)
Definition toStr (s : option string) : string :=
  match s with
  | Some x => x
  | None => "null"
  end.

Definition newline : string := String (ascii_of_nat 10) EmptyString.

(** The separator of line 78: a space, U+00B7 in UTF-8, a space. *)
Definition middot : string :=
  String " " (String (ascii_of_nat 194) (String (ascii_of_nat 183) (String " " EmptyString))).

(** ** Data model *)

(** The causes of spec 3; the router passes the first two (lines 123, 159). *)
Inductive TerminationCause : Type :=
| dispatch_close
| event_done
| client_abort.

Inductive ErrorStage : Type :=
| dispatch_prepare
| dispatch_fetch
| dispatch_read
| dispatch_parse.

(** What the router reads of [input.access]: [access.dialect] and
    [access.oaiHost] (absent on the accesses that have no such field). *)
Record Access : Type := mkAccess {
  dialect : string;
  oaiHost : option string
}.

Record ConnectionOptions : Type := mkConnectionOptions {
  debugDispatchRequestbody : option bool
}.

(** One item of [dispatchDemuxer.demux(chunk)]. *)
Record DemuxedItem : Type := mkDemuxedItem {
  item_type : string;
  item_data : string;
  item_name : option string
}.

(** Types the router only passes along; their declarations are outside this
    file ([aix.wiretypes], the dispatch adapters, the platform). *)
Class Externals : Type := {
  Model : Type;
  ChatGenerateRequest : Type;
  AixContext : Type;
  RequestBody : Type;
  RequestHeaders : Type;
  AbortSignal : Type;
  DemuxerFormat : Type;
  TextDecoder : Type;
  StreamDemuxer : Type;
  Operation : Type
}.

Section Router.

Context {X : Externals}.

(** The values yielded by the generator.  [EvOperation] belongs to the data
    model of the pipeline; this version of the router has no [yield] for it
    (lines 99 and 165 are TODOs). *)
Inductive OutputEvent : Type :=
| EvStart
| EvDebugClientPrint (_debugClientPrint : string)
| EvOperation (op : Operation)
| EvTermination (cause : TerminationCause)
| EvError (stage : ErrorStage) (message : string) (visible : bool).

Definition isTerminal (e : OutputEvent) : bool :=
  match e with
  | EvTermination _ | EvError _ _ _ => true
  | _ => false
  end.

Definition isError (e : OutputEvent) : bool :=
  match e with
  | EvError _ _ _ => true
  | _ => false
  end.

Record DispatchRequest : Type := mkDispatchRequest {
  request_url : string;
  request_method : string;
  request_headers : RequestHeaders;
  request_body : RequestBody
}.

(** Modelled from the spec: the Part Transmitter ([./PartTransmitter] is not in
    this file).  It accumulates the normalized fragments a parse function hands
    to it; the router constructs it with the dialect name and never reads it. *)
Record PartTransmitter : Type := mkPartTransmitter {
  transmitter_dialect : string;
  transmitter_operations : list Operation
}.

(** Modelled from the spec: [new PartTransmitter(prettyDialect)], empty. *)
Definition newPartTransmitter (prettyDialect : string) : PartTransmitter :=
  {| transmitter_dialect := prettyDialect; transmitter_operations := [] |}.

(** What one call of a parse function does: the operations it invoked on the
    transmitter, in order, and the error it threw, if any. *)
Record ParseResult : Type := mkParseResult {
  parse_operations : list Operation;
  parse_thrown : option JsError
}.

Definition Parser : Type := PartTransmitter -> string -> option string -> ParseResult.

Record Dispatch : Type := mkDispatch {
  request : DispatchRequest;
  demuxerFormat : DemuxerFormat;
  chatGenerateParse : Parser
}.

(** The outcome of one [dispatchReader.read()]. *)
Inductive ReadOutcome : Type :=
| ReadValue (value : list Byte.byte)
| ReadDone
| ReadThrows (error : JsError).

(** A [Response] as the router uses it: [body] is null or a stream, given by
    the outcomes of the successive reads (a stream whose outcomes are used up
    is closed: the next read reports done); [text()] returns or throws. *)
Record Response : Type := mkResponse {
  response_body : option (list ReadOutcome);
  response_text : Try string
}.

Definition createEmptyReadableStream : list ReadOutcome := [].

(** The argument of [fetchResponseOrTRPCThrow]. *)
Record FetchArgs : Type := mkFetchArgs {
  fetch_url : string;
  fetch_method : string;
  fetch_headers : RequestHeaders;
  fetch_body : RequestBody;
  fetch_signal : AbortSignal;
  fetch_name : string;
  fetch_throwWithoutName : bool
}.

Record Input : Type := mkInput {
  access : Access;
  model : Model;
  chatGenerate : ChatGenerateRequest;
  context : AixContext;
  streaming : bool;
  connectionOptions : option ConnectionOptions
}.

Record Ctx : Type := mkCtx {
  reqSignal : AbortSignal
}.

(** The collaborators and the environment of one invocation. *)
Record World : Type := mkWorld {
  NODE_ENV : string;
  serverCapitalizeFirstLetter : string -> string;
  JSON_stringify : RequestBody -> string;
  createChatGenerateDispatch :
    Access -> Model -> ChatGenerateRequest -> bool -> Try Dispatch;
  fetchResponseOrTRPCThrow : FetchArgs -> Try Response;
  newTextDecoder : TextDecoder;
  decode : TextDecoder -> list Byte.byte -> string * TextDecoder;
  createStreamDemuxer : DemuxerFormat -> StreamDemuxer;
  demux : StreamDemuxer -> string -> list DemuxedItem * StreamDemuxer
}.

(** The argument of [intakeHandler.onReceivedWireMessage]. *)
Inductive WireMessage : Type :=
| WireBody (dispatchBody : string)
| WireItem (demuxedItem : DemuxedItem).

(** What the run does, in order. *)
Inductive Action : Type :=
| ActYield (e : OutputEvent)
| ActFetch (args : FetchArgs)
| ActText (result : Try string)
| ActRead (result : ReadOutcome)
| ActDemux (dispatchChunk : string) (items : list DemuxedItem)
| ActReceived (message : WireMessage)
| ActParse (data : string) (name : option string)
| ActMarkTermination
| ActConsoleWarn (demuxedItem : DemuxedItem).

(** ** The intake handler *)

(** Modelled from the spec: the Intake State of [./IntakeHandler], which is not
    in this file (spec 3, 4.4): the two flags, and the dialect name the
    constructor receives. *)
Record IntakeHandler : Type := mkIntakeHandler {
  intake_dialect : string;
  intakeTerminated : bool;
  startEmitted : bool
}.

(** Modelled from the spec: [new IntakeHandler(prettyDialect)], live and not
    started. *)
Definition newIntakeHandler (prettyDialect : string) : IntakeHandler :=
  {| intake_dialect := prettyDialect; intakeTerminated := false; startEmitted := false |}.

(** ** The generator monad *)

Record St : Type := mkSt {
  intakeHandler : IntakeHandler;
  partTransmitter : PartTransmitter
}.

Record Outcome (A : Type) : Type := mkOutcome {
  value : A;
  after : St;
  performed : list Action
}.

Definition Gen (A : Type) : Type := St -> Outcome A.

Definition ret {A : Type} (a : A) : Gen A :=
  fun st => {| value := a; after := st; performed := [] |}.

Definition bind {A B : Type} (m : Gen A) (k : A -> Gen B) : Gen B :=
  fun st =>
    let r1 := m st in
    let r2 := k (value r1) (after r1) in
    {| value := value r2; after := after r2; performed := performed r1 ++ performed r2 |}.

Definition act (a : Action) : Gen unit :=
  fun st => {| value := tt; after := st; performed := [a] |}.

Definition setIntake (h : IntakeHandler) : Gen unit :=
  fun st => {| value := tt;
               after := {| intakeHandler := h; partTransmitter := partTransmitter st |};
               performed := [] |}.

Definition getIntake : Gen IntakeHandler :=
  fun st => {| value := intakeHandler st; after := st; performed := [] |}.

End Router.

Declare Scope gen_scope.
Delimit Scope gen_scope with gen.
Notation "x <- m ;; k" := (bind m (fun x => k))
  (at level 61, m at next level, right associativity) : gen_scope.
Notation "m ;; k" := (bind m (fun _ => k))
  (at level 61, right associativity) : gen_scope.
Local Open Scope gen_scope.

Section Pipeline.

Context {X : Externals}.

(** Modelled from the spec: [IntakeHandler.yieldStart] (spec 4.4), which is not
    in this file: it emits the [start] event. *)
Definition yieldStart : Gen unit :=
  h <- getIntake ;;
  setIntake {| intake_dialect := intake_dialect h;
               intakeTerminated := intakeTerminated h;
               startEmitted := true |} ;;
  act (ActYield EvStart).

(** Modelled from the spec: the one write to the Intake State, [terminated =
    true] (spec 3: once true it never reverts). *)
Definition terminate (h : IntakeHandler) : IntakeHandler :=
  {| intake_dialect := intake_dialect h;
     intakeTerminated := true;
     startEmitted := startEmitted h |}.

(** Modelled from the spec: [IntakeHandler.yieldTermination] (spec 4.4): it sets
    [terminated] and emits one [termination] event; on a terminated handler it
    is a no-op (spec 8, idempotence). *)
Definition yieldTermination (cause : TerminationCause) : Gen unit :=
  h <- getIntake ;;
  if intakeTerminated h then ret tt
  else setIntake (terminate h) ;; act (ActYield (EvTermination cause)).

(** Modelled from the spec: [IntakeHandler.yieldError] (spec 4.4): it sets
    [terminated] and emits one [error] event with the stage, the message and
    the shared-log flag; on a terminated handler it is a no-op (spec 8,
    idempotence).  An omitted flag counts as false. *)
Definition yieldError (stage : ErrorStage) (message : string)
    (visibleToSharedLog : option bool) : Gen unit :=
  h <- getIntake ;;
  if intakeTerminated h then ret tt
  else
    setIntake (terminate h) ;;
    act (ActYield (EvError stage message
                     (match visibleToSharedLog with Some b => b | None => false end))).

(** Modelled from the spec: [IntakeHandler.markTermination] (spec 4.4): it sets
    [terminated] and emits nothing. *)
Definition markTermination : Gen unit :=
  h <- getIntake ;;
  setIntake (terminate h) ;;
  act ActMarkTermination.

(** Modelled from the spec: [IntakeHandler.onReceivedWireMessage] (spec 4.4): an
    observation that changes no state and never throws. *)
Definition onReceivedWireMessage (message : WireMessage) : Gen unit :=
  act (ActReceived message).

(** Modelled from the spec: the query [intakeHandler.intakeTerminated]. *)
Definition isIntakeTerminated : Gen bool :=
  h <- getIntake ;;
  ret (intakeTerminated h).

(** Modelled from the spec: a call [parse(partTransmitter, data, name)] (spec
    4.5): the operations the parse function invokes are appended to what the
    transmitter holds, whether or not the call throws afterwards. *)
Definition callParse (parse : Parser) (data : string) (name : option string)
    : Gen (option JsError) :=
  fun st =>
    let r := parse (partTransmitter st) data name in
    {| value := parse_thrown r;
       after := {| intakeHandler := intakeHandler st;
                   partTransmitter :=
                     {| transmitter_dialect := transmitter_dialect (partTransmitter st);
                        transmitter_operations :=
                          transmitter_operations (partTransmitter st) ++ parse_operations r |} |};
       performed := [ActParse data name] |}.

(** ** The router, lines 29-180 *)

Variable w : World.

Definition isDevelopment : bool := NODE_ENV w =? "development".

(** Line 81. *)
Definition showOnConsoleForNonCustomServers (access : Access) : bool :=
  negb (dialect access =? "openai") || negb (truthy (oaiHost access)).

(** Lines 143-171: the inner [for] over the items of one chunk. *)
Fixpoint forDemuxedItems (prettyDialect : string) (dispatchParser : Parser)
    (items : list DemuxedItem) : Gen unit :=
  match items with
  | [] => ret tt
  | demuxedItem :: rest =>
      onReceivedWireMessage (WireItem demuxedItem) ;;
      terminated <- isIntakeTerminated ;;
      if terminated then act (ActConsoleWarn demuxedItem)
      else if negb (item_type demuxedItem =? "event") then
        forDemuxedItems prettyDialect dispatchParser rest
      else if item_data demuxedItem =? "[DONE]" then
        yieldTermination event_done
      else
        thrown <- callParse dispatchParser (item_data demuxedItem) (item_name demuxedItem) ;;
        match thrown with
        | None => forDemuxedItems prettyDialect dispatchParser rest
        | Some error =>
            yieldError dispatch_parse
              (" **[Service Parsing Issue] " ++ prettyDialect ++ "**: "
                 ++ orElse (error_safeString error) "Unknown stream parsing error"
                 ++ "." ++ newline ++ "Input data: " ++ item_data demuxedItem
                 ++ "." ++ newline ++ "Please open a support ticket.")
              (Some true)
        end
  end.

(** Lines 114-173: the [do ... while (!intakeHandler.intakeTerminated)] pump. *)
Fixpoint dataPump (prettyDialect : string) (dispatchParser : Parser)
    (dispatchDecoder : TextDecoder) (dispatchDemuxer : StreamDemuxer)
    (reads : list ReadOutcome) : Gen unit :=
  let streamClosed := act (ActRead ReadDone) ;; yieldTermination dispatch_close in
  match reads with
  | [] => streamClosed
  | ReadDone :: _ => streamClosed
  | ReadThrows error :: _ =>
      act (ActRead (ReadThrows error)) ;;
      if match error_name error with Some n => n =? "ResponseAborted" | None => false end
      then markTermination
      else
        yieldError dispatch_read
          ("**[Streaming Issue] " ++ prettyDialect ++ "**: "
             ++ orElse (error_safeString error) "Unknown stream reading error")
          None
  | ReadValue value :: later =>
      act (ActRead (ReadValue value)) ;;
      let decoded := decode w dispatchDecoder value in
      let dispatchChunk := fst decoded in
      let demuxed := demux w dispatchDemuxer dispatchChunk in
      act (ActDemux dispatchChunk (fst demuxed)) ;;
      forDemuxedItems prettyDialect dispatchParser (fst demuxed) ;;
      terminated <- isIntakeTerminated ;;
      if terminated then ret tt
      else dataPump prettyDialect dispatchParser (snd decoded) (snd demuxed) later
  end.

(** Lines 107-173. *)
Definition streamResponse (prettyDialect : string) (dispatch : Dispatch)
    (dispatchResponse : Response) : Gen unit :=
  let dispatchReader :=
    match response_body dispatchResponse with
    | Some body => body
    | None => createEmptyReadableStream
    end in
  let dispatchDecoder := newTextDecoder w in
  let dispatchDemuxer := createStreamDemuxer w (demuxerFormat dispatch) in
  let dispatchParser := chatGenerateParse dispatch in
  dataPump prettyDialect dispatchParser dispatchDecoder dispatchDemuxer dispatchReader.

(** Lines 88-104. *)
Definition readWholeResponse (prettyDialect : string) (dispatch : Dispatch)
    (dispatchResponse : Response) : Gen unit :=
  act (ActText (response_text dispatchResponse)) ;;
  match response_text dispatchResponse with
  | Throws error =>
      yieldError dispatch_read
        ("**[Reading Issue] " ++ prettyDialect ++ "**: "
           ++ orElse (error_safeString error) "Unknown stream reading error")
        None
  | Returns dispatchBody =>
      onReceivedWireMessage (WireBody dispatchBody) ;;
      thrown <- callParse (chatGenerateParse dispatch) dispatchBody None ;;
      match thrown with
      | None => ret tt
      | Some error =>
          yieldError dispatch_parse
            (" **[Parsing Issue] " ++ prettyDialect ++ "**: "
               ++ orElse (error_safeString error) "Unknown stream parsing error"
               ++ "." ++ newline ++ "Input data: " ++ dispatchBody
               ++ "." ++ newline ++ "Please open a support ticket.")
            (Some true)
      end
  end.

(** Lines 51-53.  [JSON.stringify] is taken to return. *)
Definition debugClientPrint (input : Input) (dispatch : Dispatch) : Gen unit :=
  if match connectionOptions input with
     | Some options =>
         match debugDispatchRequestbody options with Some b => b | None => false end
     | None => false
     end && isDevelopment
  then act (ActYield (EvDebugClientPrint (JSON_stringify w (request_body (request dispatch)))))
  else ret tt.

(** Lines 60-84, then the branch of line 88. *)
Definition connect (prettyDialect : string) (input : Input) (intakeAbortSignal : AbortSignal)
    (dispatch : Dispatch) : Gen unit :=
  let args :=
    {| fetch_url := request_url (request dispatch);
       fetch_method := "POST";
       fetch_headers := request_headers (request dispatch);
       fetch_body := request_body (request dispatch);
       fetch_signal := intakeAbortSignal;
       fetch_name := "Aix." ++ prettyDialect;
       fetch_throwWithoutName := true |} in
  act (ActFetch args) ;;
  match fetchResponseOrTRPCThrow w args with
  | Throws error =>
      let dispatchFetchError :=
        toStr (error_safeString error)
          ++ match error_cause error with
             | Some cause => middot ++ cause
             | None => ""
             end in
      let extraDevMessage :=
        if isDevelopment
        then newline ++ "[DEV_URL: " ++ request_url (request dispatch) ++ "]"
        else "" in
      yieldError dispatch_fetch
        ("**[Service Issue] " ++ prettyDialect ++ "**: " ++ dispatchFetchError ++ extraDevMessage)
        (Some (showOnConsoleForNonCustomServers (access input)))
  | Returns dispatchResponse =>
      if negb (streaming input)
      then readWholeResponse prettyDialect dispatch dispatchResponse
      else streamResponse prettyDialect dispatch dispatchResponse
  end.

(** Lines 29-58: the body of the mutation. *)
Definition mutation (input : Input) (ctx : Ctx) (prettyDialect : string) : Gen unit :=
  let intakeAbortSignal := reqSignal ctx in
  yieldStart ;;
  match createChatGenerateDispatch w (access input) (model input) (chatGenerate input)
          (streaming input) with
  | Throws error =>
      yieldError dispatch_prepare
        ("**[Configuration Issue] " ++ prettyDialect ++ "**: "
           ++ orElse (error_safeString error) "Unknown service preparation error")
        None
  | Returns dispatch =>
      debugClientPrint input dispatch ;;
      connect prettyDialect input intakeAbortSignal dispatch
  end.

Definition chatGenerateContent (input : Input) (ctx : Ctx) : Outcome unit :=
  let accessDialect := dialect (access input) in
  let prettyDialect := serverCapitalizeFirstLetter w accessDialect in
  mutation input ctx prettyDialect
    {| intakeHandler := newIntakeHandler prettyDialect;
       partTransmitter := newPartTransmitter prettyDialect |}.

End Pipeline.

(** ** Observations of a run *)

Section Observations.

Context {X : Externals}.

Fixpoint yields (trace : list Action) : list OutputEvent :=
  match trace with
  | [] => []
  | ActYield e :: rest => e :: yields rest
  | _ :: rest => yields rest
  end.

(** The output sequence of an invocation. *)
Definition output (w : World) (input : Input) (ctx : Ctx) : list OutputEvent :=
  yields (performed (chatGenerateContent w input ctx)).

Definition trace (w : World) (input : Input) (ctx : Ctx) : list Action :=
  performed (chatGenerateContent w input ctx).

End Observations.

Unset Implicit Arguments.
#[local] Arguments String.append : simpl never.
Local Open Scope list_scope.

(** ** Vocabulary for the statements *)

Section PumpVocabulary.

Context {X : Externals}.
Variable prettyDialect : string.

Definition terminated (st : St) : bool := intakeTerminated (intakeHandler st).

(** A demuxed item that is the end-of-stream sentinel of lines 154-158. *)
Definition isDoneEvent (i : DemuxedItem) : bool :=
  (item_type i =? "event")%string && (item_data i =? "[DONE]")%string.

(** The state after [yieldTermination], [yieldError] or [markTermination]. *)
Definition closed (st : St) : St :=
  {| intakeHandler := terminate (intakeHandler st); partTransmitter := partTransmitter st |}.

(** The state after one call of the parser. *)
Definition parsed (parse : Parser) (data : string) (name : option string) (st : St) : St :=
  after (callParse parse data name st).

(** [r], with the actions [t] performed first. *)
Definition before {A : Type} (t : list Action) (r : Outcome A) : Outcome A :=
  {| value := value r; after := after r; performed := t ++ performed r |}.

(** The message of line 168. *)
Definition streamParseMessage (error : JsError) (i : DemuxedItem) : string :=
  (" **[Service Parsing Issue] " ++ prettyDialect ++ "**: "
    ++ orElse (error_safeString error) "Unknown stream parsing error"
    ++ "." ++ newline ++ "Input data: " ++ item_data i
    ++ "." ++ newline ++ "Please open a support ticket.")%string.

(** The message of line 137. *)
Definition streamReadMessage (error : JsError) : string :=
  ("**[Streaming Issue] " ++ prettyDialect ++ "**: "
    ++ orElse (error_safeString error) "Unknown stream reading error")%string.

(** The test of line 131. *)
Definition isResponseAborted (error : JsError) : bool :=
  match error_name error with
  | Some n => (n =? "ResponseAborted")%string
  | None => false
  end.

(** Actions of the inner loop that leave the handler live. *)
Definition calmItem (a : Action) : bool :=
  match a with
  | ActReceived (WireItem i) => negb (isDoneEvent i)
  | ActParse _ _ => true
  | _ => false
  end.

(** Actions of the pump that leave the handler live. *)
Definition calm (a : Action) : bool :=
  match a with
  | ActRead (ReadValue _) => true
  | ActDemux _ _ => true
  | _ => calmItem a
  end.

(** The actions only the pump performs. *)
Definition isPumpAction (a : Action) : bool :=
  match a with
  | ActRead _ | ActDemux _ _ | ActReceived (WireItem _) | ActMarkTermination => true
  | _ => false
  end.

(** The demuxed items surfaced to the intake handler, in order. *)
Fixpoint surfaced (t : list Action) : list DemuxedItem :=
  match t with
  | [] => []
  | ActReceived (WireItem i) :: rest => i :: surfaced rest
  | _ :: rest => surfaced rest
  end.

(** The two ways an item ends the run (lines 158-161 and 166-170). *)
Inductive ItemEnding : list Action -> Prop :=
| EndDone i :
    isDoneEvent i = true ->
    ItemEnding [ActReceived (WireItem i); ActYield (EvTermination event_done)]
| EndParse i error :
    (item_type i =? "event")%string = true ->
    (item_data i =? "[DONE]")%string = false ->
    ItemEnding [ActReceived (WireItem i); ActParse (item_data i) (item_name i);
                ActYield (EvError dispatch_parse (streamParseMessage error i) true)].

(** The three ways a read ends the run (lines 122-125, 131-134, 137-138). *)
Inductive ReadEnding : list Action -> Prop :=
| EndClose :
    ReadEnding [ActRead ReadDone; ActYield (EvTermination dispatch_close)]
| EndAbort error :
    isResponseAborted error = true ->
    ReadEnding [ActRead (ReadThrows error); ActMarkTermination]
| EndReadError error :
    isResponseAborted error = false ->
    ReadEnding [ActRead (ReadThrows error);
                ActYield (EvError dispatch_read (streamReadMessage error) false)].

(** The inner loop surfaces a prefix of the batch; it stops short of the end
    only by ending the run. *)
Definition LoopShape (items : list DemuxedItem) (r : Outcome unit) : Prop :=
  exists seen unseen,
    items = seen ++ unseen /\
    surfaced (performed r) = seen /\
    ((terminated (after r) = false /\
      unseen = [] /\
      Forall (fun a => calmItem a = true) (performed r))
     \/
     (terminated (after r) = true /\
      seen <> [] /\
      exists q ending,
        performed r = q ++ ending /\
        Forall (fun a => calmItem a = true) q /\
        ItemEnding ending)).

(** The pump always ends the run, and its trace is calm up to the ending. *)
Definition PumpShape (r : Outcome unit) : Prop :=
  terminated (after r) = true /\
  exists q ending,
    performed r = q ++ ending /\
    Forall (fun a => calm a = true) q /\
    (ReadEnding ending \/ ItemEnding ending).

End PumpVocabulary.

Section RunVocabulary.

Context {X : Externals}.
Variable w : World.
Variable input : Input.
Variable ctx : Ctx.

Definition prettyDialectOf : string :=
  serverCapitalizeFirstLetter w (dialect (access input)).

(** The state once [yieldStart] has run: nothing else touches it before the
    response is read. *)
Definition started : St :=
  {| intakeHandler :=
       {| intake_dialect := prettyDialectOf; intakeTerminated := false; startEmitted := true |};
     partTransmitter := newPartTransmitter prettyDialectOf |}.

Definition builtDispatch : Try Dispatch :=
  createChatGenerateDispatch w (access input) (model input) (chatGenerate input)
    (streaming input).

(** [input.connectionOptions?.debugDispatchRequestbody], as a condition. *)
Definition debugFlag : bool :=
  match connectionOptions input with
  | Some options =>
      match debugDispatchRequestbody options with
      | Some b => b
      | None => false
      end
  | None => false
  end.

(** The diagnostic event of line 53, when lines 52 lets it through. *)
Definition debugEvents (dispatch : Dispatch) : list OutputEvent :=
  if debugFlag && isDevelopment w
  then [EvDebugClientPrint (JSON_stringify w (request_body (request dispatch)))]
  else [].

(** The argument of the call of lines 65-73. *)
Definition fetchArgs (dispatch : Dispatch) : FetchArgs :=
  {| fetch_url := request_url (request dispatch);
     fetch_method := "POST";
     fetch_headers := request_headers (request dispatch);
     fetch_body := request_body (request dispatch);
     fetch_signal := reqSignal ctx;
     fetch_name := ("Aix." ++ prettyDialectOf)%string;
     fetch_throwWithoutName := true |}.

(** The messages of lines 56, 82, 94 and 101. *)
Definition prepareMessage (error : JsError) : string :=
  ("**[Configuration Issue] " ++ prettyDialectOf ++ "**: "
     ++ orElse (error_safeString error) "Unknown service preparation error")%string.

Definition fetchMessage (dispatch : Dispatch) (error : JsError) : string :=
  ("**[Service Issue] " ++ prettyDialectOf ++ "**: "
     ++ (toStr (error_safeString error)
           ++ match error_cause error with
              | Some cause => middot ++ cause
              | None => ""
              end)
     ++ (if isDevelopment w
         then newline ++ "[DEV_URL: " ++ request_url (request dispatch) ++ "]"
         else ""))%string.

Definition readMessage (error : JsError) : string :=
  ("**[Reading Issue] " ++ prettyDialectOf ++ "**: "
     ++ orElse (error_safeString error) "Unknown stream reading error")%string.

Definition parseMessage (error : JsError) (dispatchBody : string) : string :=
  (" **[Parsing Issue] " ++ prettyDialectOf ++ "**: "
     ++ orElse (error_safeString error) "Unknown stream parsing error"
     ++ "." ++ newline ++ "Input data: " ++ dispatchBody
     ++ "." ++ newline ++ "Please open a support ticket.")%string.

(** The whole-body parse of the non-streaming branch. *)
Definition wholeParse (dispatch : Dispatch) (dispatchBody : string) : ParseResult :=
  chatGenerateParse dispatch (newPartTransmitter prettyDialectOf) dispatchBody None.

(** The stream the pump reads: the response body, or the empty stream. *)
Definition readerOf (dispatchResponse : Response) : list ReadOutcome :=
  match response_body dispatchResponse with
  | Some body => body
  | None => createEmptyReadableStream
  end.

Definition pumpOf (dispatch : Dispatch) (dispatchResponse : Response) : Outcome unit :=
  dataPump w prettyDialectOf (chatGenerateParse dispatch) (newTextDecoder w)
    (createStreamDemuxer w (demuxerFormat dispatch)) (readerOf dispatchResponse) started.

(** The six paths through the mutation, as traces. *)
Inductive Path : list Action -> Prop :=
| PathPrepare error :
    builtDispatch = Throws error ->
    Path [ActYield EvStart;
          ActYield (EvError dispatch_prepare (prepareMessage error) false)]
| PathFetch dispatch error :
    builtDispatch = Returns dispatch ->
    fetchResponseOrTRPCThrow w (fetchArgs dispatch) = Throws error ->
    Path (ActYield EvStart :: map ActYield (debugEvents dispatch)
            ++ [ActFetch (fetchArgs dispatch);
                ActYield (EvError dispatch_fetch (fetchMessage dispatch error)
                            (showOnConsoleForNonCustomServers (access input)))])
| PathRead dispatch dispatchResponse error :
    builtDispatch = Returns dispatch ->
    fetchResponseOrTRPCThrow w (fetchArgs dispatch) = Returns dispatchResponse ->
    streaming input = false ->
    response_text dispatchResponse = Throws error ->
    Path (ActYield EvStart :: map ActYield (debugEvents dispatch)
            ++ [ActFetch (fetchArgs dispatch); ActText (Throws error);
                ActYield (EvError dispatch_read (readMessage error) false)])
| PathWhole dispatch dispatchResponse dispatchBody :
    builtDispatch = Returns dispatch ->
    fetchResponseOrTRPCThrow w (fetchArgs dispatch) = Returns dispatchResponse ->
    streaming input = false ->
    response_text dispatchResponse = Returns dispatchBody ->
    parse_thrown (wholeParse dispatch dispatchBody) = None ->
    Path (ActYield EvStart :: map ActYield (debugEvents dispatch)
            ++ [ActFetch (fetchArgs dispatch); ActText (Returns dispatchBody);
                ActReceived (WireBody dispatchBody); ActParse dispatchBody None])
| PathParse dispatch dispatchResponse dispatchBody error :
    builtDispatch = Returns dispatch ->
    fetchResponseOrTRPCThrow w (fetchArgs dispatch) = Returns dispatchResponse ->
    streaming input = false ->
    response_text dispatchResponse = Returns dispatchBody ->
    parse_thrown (wholeParse dispatch dispatchBody) = Some error ->
    Path (ActYield EvStart :: map ActYield (debugEvents dispatch)
            ++ [ActFetch (fetchArgs dispatch); ActText (Returns dispatchBody);
                ActReceived (WireBody dispatchBody); ActParse dispatchBody None;
                ActYield (EvError dispatch_parse (parseMessage error dispatchBody) true)])
| PathStream dispatch dispatchResponse q ending :
    builtDispatch = Returns dispatch ->
    fetchResponseOrTRPCThrow w (fetchArgs dispatch) = Returns dispatchResponse ->
    streaming input = true ->
    performed (pumpOf dispatch dispatchResponse) = q ++ ending ->
    Forall (fun a => calm a = true) q ->
    ReadEnding prettyDialectOf ending \/ ItemEnding prettyDialectOf ending ->
    Path (ActYield EvStart :: map ActYield (debugEvents dispatch)
            ++ ActFetch (fetchArgs dispatch) :: q ++ ending).

(** The non-streaming run whose body was read and parsed without a throw
    (lines 98-103 with no exception). *)
Definition WholeBodyParsed : Prop :=
  streaming input = false /\
  exists dispatch dispatchResponse dispatchBody,
    builtDispatch = Returns dispatch /\
    fetchResponseOrTRPCThrow w (fetchArgs dispatch) = Returns dispatchResponse /\
    response_text dispatchResponse = Returns dispatchBody /\
    parse_thrown (wholeParse dispatch dispatchBody) = None.

(** No chunk read of the trace failed with the client's abort, and
    [markTermination] (line 132) was not called. *)
Definition Unaborted (t : list Action) : Prop :=
  ~ In ActMarkTermination t /\
  forall error, In (ActRead (ReadThrows error)) t -> isResponseAborted error = false.

(** Modelled from the spec: a user-configured custom endpoint (spec 3, 4.2): an
    access whose host the user has set, whatever its dialect. *)
Definition isUserConfiguredEndpoint (access : Access) : bool :=
  truthy (oaiHost access).

(** The shared-log flag each stage passes to [yieldError] (lines 56, 82, 94,
    101, 137, 168). *)
Definition stageVisibility (stage : ErrorStage) : bool :=
  match stage with
  | dispatch_fetch => showOnConsoleForNonCustomServers (access input)
  | dispatch_parse => true
  | dispatch_prepare | dispatch_read => false
  end.

(** The same input with other connection options. *)
Definition withConnectionOptions (options : option ConnectionOptions) : Input :=
  {| access := access input; model := model input; chatGenerate := chatGenerate input;
     context := context input; streaming := streaming input;
     connectionOptions := options |}.

(** The same world, whose dispatch builder answers with another [method] in
    the request descriptor. *)
Definition withRequestMethod (method : string) : World :=
  {| NODE_ENV := NODE_ENV w;
     serverCapitalizeFirstLetter := serverCapitalizeFirstLetter w;
     JSON_stringify := JSON_stringify w;
     createChatGenerateDispatch := fun access model chatGenerate streaming =>
       match createChatGenerateDispatch w access model chatGenerate streaming with
       | Returns dispatch =>
           Returns {| request :=
                        {| request_url := request_url (request dispatch);
                           request_method := method;
                           request_headers := request_headers (request dispatch);
                           request_body := request_body (request dispatch) |};
                      demuxerFormat := demuxerFormat dispatch;
                      chatGenerateParse := chatGenerateParse dispatch |}
       | Throws error => Throws error
       end;
     fetchResponseOrTRPCThrow := fetchResponseOrTRPCThrow w;
     newTextDecoder := newTextDecoder w;
     decode := decode w;
     createStreamDemuxer := createStreamDemuxer w;
     demux := demux w |}.

End RunVocabulary.

(** ** The claims of the specification, as stated *)

Section Stated.

Context {X : Externals}.

(** Spec 8, first property: one [start] first, one terminal event last. *)
Definition Framed (out : list OutputEvent) : Prop :=
  exists middle final,
    out = EvStart :: middle ++ [final] /\
    isTerminal final = true /\
    Forall (fun e => e <> EvStart /\ isTerminal e = false) middle.

(** Every demuxed [[DONE]] event makes the run emit [termination(event-done)]. *)
Definition SentinelHonoured (t : list Action) : Prop :=
  forall chunk items item,
    In (ActDemux chunk items) t -> In item items -> isDoneEvent item = true ->
    In (EvTermination event_done) (yields t).

(** Every item of every demuxed batch is surfaced to the intake handler. *)
Definition AllSurfaced (t : list Action) : Prop :=
  forall chunk items item,
    In (ActDemux chunk items) t -> In item items -> In (ActReceived (WireItem item)) t.

(** The flag of every [error(dispatch-fetch)] is off exactly for the
    user-configured custom endpoints. *)
Definition FetchFlagFollowsCustomEndpoint (access : Access) (out : list OutputEvent) : Prop :=
  forall message visible,
    In (EvError dispatch_fetch message visible) out ->
    visible = negb (isUserConfiguredEndpoint access).

(** A failure of a read by which the caller's cancellation reaches the pump:
    the [ResponseAborted] of the hosting framework, or the [AbortError] with
    which a reader rejects when the signal given to the fetch fires. *)
Definition signalsCancellation (error : JsError) : bool :=
  match error_name error with
  | Some n => (n =? "ResponseAborted")%string || (n =? "AbortError")%string
  | None => false
  end.

(** A cancelled chunk read leaves no error event in the output. *)
Definition CancellationIsSilent (t : list Action) : Prop :=
  forall error,
    In (ActRead (ReadThrows error)) t ->
    signalsCancellation error = true ->
    Forall (fun e => isError e = false) (yields t).

End Stated.

(** ** Further observations of a run *)

Section MoreObservations.

Context {X : Externals}.

(** The arguments of the fetches issued, in order. *)
Fixpoint fetches (t : list Action) : list FetchArgs :=
  match t with
  | [] => []
  | ActFetch args :: rest => args :: fetches rest
  | _ :: rest => fetches rest
  end.

(** The outcomes of the chunk reads performed, in order. *)
Fixpoint readsOf (t : list Action) : list ReadOutcome :=
  match t with
  | [] => []
  | ActRead result :: rest => result :: readsOf rest
  | _ :: rest => readsOf rest
  end.

(** The byte chunks read, in order. *)
Fixpoint valuesOf (t : list Action) : list (list Byte.byte) :=
  match t with
  | [] => []
  | ActRead (ReadValue value) :: rest => value :: valuesOf rest
  | _ :: rest => valuesOf rest
  end.

(** The calls of the demultiplexer, each with the text it got and the batch it
    returned, in order. *)
Fixpoint demuxesOf (t : list Action) : list (string * list DemuxedItem) :=
  match t with
  | [] => []
  | ActDemux dispatchChunk items :: rest => (dispatchChunk, items) :: demuxesOf rest
  | _ :: rest => demuxesOf rest
  end.

(** The calls of the parse function, each with its data and name, in order. *)
Fixpoint parseCalls (t : list Action) : list (string * option string) :=
  match t with
  | [] => []
  | ActParse data name :: rest => (data, name) :: parseCalls rest
  | _ :: rest => parseCalls rest
  end.

(** The actions only the non-streaming branch performs. *)
Definition isWholeBodyAction (a : Action) : bool :=
  match a with
  | ActText _ | ActReceived (WireBody _) => true
  | _ => false
  end.

(** The items the pump hands to the parse function (lines 154-164): events
    whose data is not the sentinel. *)
Definition parsable (i : DemuxedItem) : bool :=
  (item_type i =? "event")%string && negb (item_data i =? "[DONE]")%string.

(** The arguments of the parse call on an item (line 164). *)
Definition callOf (i : DemuxedItem) : string * option string :=
  (item_data i, item_name i).

Definition isConsoleWarn (a : Action) : bool :=
  match a with
  | ActConsoleWarn _ => true
  | _ => false
  end.

(** The transmitter after one more call of the parse function: it holds the
    operations of the call behind those it held. *)
Definition absorb (parse : Parser) (transmitter : PartTransmitter)
    (call : string * option string) : PartTransmitter :=
  {| transmitter_dialect := transmitter_dialect transmitter;
     transmitter_operations :=
       transmitter_operations transmitter
         ++ parse_operations (parse transmitter (fst call) (snd call)) |}.

(** The transmitter after the given calls of the parse function, in order. *)
Definition replay (parse : Parser) (transmitter : PartTransmitter)
    (calls : list (string * option string)) : PartTransmitter :=
  fold_left (absorb parse) calls transmitter.

(** Each of the calls, made in order on the transmitter the calls before
    left, returns without throwing. *)
Fixpoint quietCalls (parse : Parser) (transmitter : PartTransmitter)
    (calls : list (string * option string)) : Prop :=
  match calls with
  | [] => True
  | call :: later =>
      parse_thrown (parse transmitter (fst call) (snd call)) = None /\
      quietCalls parse (absorb parse transmitter call) later
  end.

(** The item that ends the run, with the actions of its turn (lines 158-161
    and 163-170): the sentinel, or an event on which the parse function, called
    on the given transmitter, throws. *)
Inductive ItemEnds (prettyDialect : string) (parse : Parser) (transmitter : PartTransmitter)
    : DemuxedItem -> list Action -> Prop :=
| EndsDone i :
    isDoneEvent i = true ->
    ItemEnds prettyDialect parse transmitter i
      [ActReceived (WireItem i); ActYield (EvTermination event_done)]
| EndsParse i error :
    (item_type i =? "event")%string = true ->
    (item_data i =? "[DONE]")%string = false ->
    parse_thrown (parse transmitter (item_data i) (item_name i)) = Some error ->
    ItemEnds prettyDialect parse transmitter i
      [ActReceived (WireItem i); ActParse (item_data i) (item_name i);
       ActYield (EvError dispatch_parse (streamParseMessage prettyDialect error i) true)].

(** The actions of the turn of the inner loop on an item that does not end
    the run (lines 144-165): the item is surfaced to the intake handler, and
    handed to the parse function if it is an event. *)
Definition turnOf (i : DemuxedItem) : list Action :=
  ActReceived (WireItem i)
    :: (if parsable i then [ActParse (item_data i) (item_name i)] else []).

Definition turnsOf (items : list DemuxedItem) : list Action := flat_map turnOf items.

(** The parse calls of those turns. *)
Definition callsOf (items : list DemuxedItem) : list (string * option string) :=
  map callOf (filter parsable items).

(** What the inner loop does with a batch, from a live handler: either it
    takes a turn on every item, no item being the sentinel and every parse
    call returning, and leaves the handler live; or it takes such turns on the
    items before the first one that ends the run, then the turn of that one,
    and stops there. *)
Definition LoopExact (prettyDialect : string) (parse : Parser) (st : St)
    (items : list DemuxedItem) (r : Outcome unit) : Prop :=
  (terminated (after r) = false /\
   performed r = turnsOf items /\
   Forall (fun i => isDoneEvent i = false) items /\
   quietCalls parse (partTransmitter st) (callsOf items))
  \/
  (terminated (after r) = true /\
   exists seen last unseen ending,
     items = seen ++ last :: unseen /\
     performed r = turnsOf seen ++ ending /\
     Forall (fun i => isDoneEvent i = false) seen /\
     quietCalls parse (partTransmitter st) (callsOf seen) /\
     ItemEnds prettyDialect parse (replay parse (partTransmitter st) (callsOf seen))
       last ending).

(** What the pump does, from a live handler: calm actions whose parse calls
    all return, and then one ending. *)
Definition PumpExact (prettyDialect : string) (parse : Parser) (st : St)
    (r : Outcome unit) : Prop :=
  exists q ending,
    performed r = q ++ ending /\
    Forall (fun a => calm a = true) q /\
    quietCalls parse (partTransmitter st) (parseCalls q) /\
    (ReadEnding prettyDialect ending
     \/ exists last,
          ItemEnds prettyDialect parse (replay parse (partTransmitter st) (parseCalls q))
            last ending).

(** What happens to a batch the demultiplexer returned, read off the actions
    [post] that follow the [demux] call, [transmitter] being the transmitter at
    that call.  Either every item of the batch has its turn, in order: none is
    the sentinel, every parse call returns, and the pump goes on to its next
    read.  Or the batch is cut at the first item that ends the run: the items
    [seen] before it have their turns (none is the sentinel, every parse call
    returns), then [last] is surfaced and ends the run (it is the sentinel, or
    the parse function throws on it), and nothing follows: the items [unseen]
    behind it are not surfaced. *)
Definition BatchCut (prettyDialect : string) (parse : Parser) (transmitter : PartTransmitter)
    (items : list DemuxedItem) (post : list Action) : Prop :=
  (exists read later,
     post = turnsOf items ++ ActRead read :: later /\
     Forall (fun i => isDoneEvent i = false) items /\
     quietCalls parse transmitter (callsOf items))
  \/
  (exists seen last unseen ending,
     items = seen ++ last :: unseen /\
     post = turnsOf seen ++ ending /\
     Forall (fun i => isDoneEvent i = false) seen /\
     quietCalls parse transmitter (callsOf seen) /\
     ItemEnds prettyDialect parse (replay parse transmitter (callsOf seen)) last ending).

(** The byte chunks through one decoder and one demultiplexer, each fed in
    turn with the state the chunk before left. *)
Fixpoint decodeAll (w : World) (dispatchDecoder : TextDecoder)
    (dispatchDemuxer : StreamDemuxer) (values : list (list Byte.byte))
    : list (string * list DemuxedItem) :=
  match values with
  | [] => []
  | value :: later =>
      let decoded := decode w dispatchDecoder value in
      let demuxed := demux w dispatchDemuxer (fst decoded) in
      (fst decoded, fst demuxed) :: decodeAll w (snd decoded) (snd demuxed) later
  end.

(** Whether the run of the given collaborators' answers leaves the intake
    handler terminated, path by path. *)
Definition endsTerminated (w : World) (input : Input) (ctx : Ctx) : bool :=
  match builtDispatch w input with
  | Throws _ => true
  | Returns dispatch =>
      match fetchResponseOrTRPCThrow w (fetchArgs w input ctx dispatch) with
      | Throws _ => true
      | Returns dispatchResponse =>
          if streaming input then true
          else
            match response_text dispatchResponse with
            | Throws _ => true
            | Returns dispatchBody =>
                match parse_thrown (wholeParse w input dispatch dispatchBody) with
                | Some _ => true
                | None => false
                end
            end
      end
  end.

(** What the stage of an error event tells about the run. *)
Definition Attributed (w : World) (input : Input) (ctx : Ctx) (stage : ErrorStage)
    (message : string) : Prop :=
  match stage with
  | dispatch_prepare =>
      exists error,
        builtDispatch w input = Throws error /\
        message = prepareMessage w input error
  | dispatch_fetch =>
      exists dispatch error,
        builtDispatch w input = Returns dispatch /\
        fetchResponseOrTRPCThrow w (fetchArgs w input ctx dispatch) = Throws error /\
        message = fetchMessage w input dispatch error
  | dispatch_read =>
      (streaming input = false /\
       exists dispatch dispatchResponse error,
         builtDispatch w input = Returns dispatch /\
         fetchResponseOrTRPCThrow w (fetchArgs w input ctx dispatch)
           = Returns dispatchResponse /\
         response_text dispatchResponse = Throws error /\
         message = readMessage w input error)
      \/
      (streaming input = true /\
       exists error,
         In (ActRead (ReadThrows error)) (trace w input ctx) /\
         isResponseAborted error = false /\
         message = streamReadMessage (prettyDialectOf w input) error)
  | dispatch_parse =>
      (streaming input = false /\
       exists dispatch dispatchResponse dispatchBody error,
         builtDispatch w input = Returns dispatch /\
         fetchResponseOrTRPCThrow w (fetchArgs w input ctx dispatch)
           = Returns dispatchResponse /\
         response_text dispatchResponse = Returns dispatchBody /\
         parse_thrown (wholeParse w input dispatch dispatchBody) = Some error /\
         message = parseMessage w input error dispatchBody)
      \/
      (streaming input = true /\
       exists dispatch pre item error,
         builtDispatch w input = Returns dispatch /\
         trace w input ctx
           = pre ++ [ActReceived (WireItem item);
                     ActParse (item_data item) (item_name item);
                     ActYield (EvError dispatch_parse message true)] /\
         (item_type item =? "event")%string = true /\
         parse_thrown
           (chatGenerateParse dispatch
              (replay (chatGenerateParse dispatch)
                 (newPartTransmitter (prettyDialectOf w input)) (parseCalls pre))
              (item_data item) (item_name item)) = Some error /\
         message = streamParseMessage (prettyDialectOf w input) error item)
  end.

End MoreObservations.

(** ** The Supabase sync store, lines 186-220 *)

Module SupabaseSync.

(** The state of [ModuleSupabaseSyncStore]: the three settings.  [lastSyncTime]
    is a number the store only keeps; it is an integer here. *)
Record ModuleSupabaseSyncStore : Type := mkStore {
  supabaseUrl : string;
  supabaseKey : string;
  lastSyncTime : Z
}.

(** The argument of the store's [set]: the fields it names. *)
Record Partial : Type := mkPartial {
  partial_supabaseUrl : option string;
  partial_supabaseKey : option string;
  partial_lastSyncTime : option Z
}.

(** [set(partial)]: the named fields replace the state's, the others stay. *)
Definition set (partial : Partial) (state : ModuleSupabaseSyncStore)
    : ModuleSupabaseSyncStore :=
  {| supabaseUrl :=
       match partial_supabaseUrl partial with Some v => v | None => supabaseUrl state end;
     supabaseKey :=
       match partial_supabaseKey partial with Some v => v | None => supabaseKey state end;
     lastSyncTime :=
       match partial_lastSyncTime partial with Some v => v | None => lastSyncTime state end |}.

(** Lines 207-214: the initial settings. *)
Definition initial : ModuleSupabaseSyncStore :=
  {| supabaseUrl := EmptyString; supabaseKey := EmptyString; lastSyncTime := 0%Z |}.

(** Line 208. *)
Definition setSupabaseUrl (supaUrl : string) : ModuleSupabaseSyncStore -> ModuleSupabaseSyncStore :=
  set {| partial_supabaseUrl := Some supaUrl;
         partial_supabaseKey := None;
         partial_lastSyncTime := None |}.

(** Line 211. *)
Definition setSupabaseKey (key : string) : ModuleSupabaseSyncStore -> ModuleSupabaseSyncStore :=
  set {| partial_supabaseUrl := None;
         partial_supabaseKey := Some key;
         partial_lastSyncTime := None |}.

(** Line 214. *)
Definition setLastSyncTime (lastSyncTime : Z)
    : ModuleSupabaseSyncStore -> ModuleSupabaseSyncStore :=
  set {| partial_supabaseUrl := None;
         partial_supabaseKey := None;
         partial_lastSyncTime := Some lastSyncTime |}.

(** One call of a setter of the store. *)
Inductive Call : Type :=
| CallSetSupabaseUrl (supaUrl : string)
| CallSetSupabaseKey (key : string)
| CallSetLastSyncTime (lastSyncTime : Z).

Definition perform (state : ModuleSupabaseSyncStore) (call : Call) : ModuleSupabaseSyncStore :=
  match call with
  | CallSetSupabaseUrl supaUrl => setSupabaseUrl supaUrl state
  | CallSetSupabaseKey key => setSupabaseKey key state
  | CallSetLastSyncTime time => setLastSyncTime time state
  end.

(** The store after a sequence of setter calls. *)
Definition performAll (calls : list Call) (state : ModuleSupabaseSyncStore)
    : ModuleSupabaseSyncStore :=
  fold_left perform calls state.

(** The arguments the calls gave to each setter, in order. *)
Fixpoint urlsSet (calls : list Call) : list string :=
  match calls with
  | [] => []
  | CallSetSupabaseUrl supaUrl :: rest => supaUrl :: urlsSet rest
  | _ :: rest => urlsSet rest
  end.

Fixpoint keysSet (calls : list Call) : list string :=
  match calls with
  | [] => []
  | CallSetSupabaseKey key :: rest => key :: keysSet rest
  | _ :: rest => keysSet rest
  end.

Fixpoint timesSet (calls : list Call) : list Z :=
  match calls with
  | [] => []
  | CallSetLastSyncTime time :: rest => time :: timesSet rest
  | _ :: rest => timesSet rest
  end.

End SupabaseSync.

(** ** A concrete world, for the examples *)

Module Demo.

Definition externals : Externals :=
  {| Model := string;
     ChatGenerateRequest := string;
     AixContext := string;
     RequestBody := string;
     RequestHeaders := list (string * string);
     AbortSignal := unit;
     DemuxerFormat := unit;
     TextDecoder := unit;
     StreamDemuxer := string;
     Operation := string |}.

#[local] Existing Instance externals.

Definition capitalize (s : string) : string :=
  match s with
  | EmptyString => EmptyString
  | String c rest =>
      let n := nat_of_ascii c in
      String (if Nat.leb 97 n && Nat.leb n 122 then ascii_of_nat (n - 32) else c) rest
  end.

(** A line demultiplexer: the text is cut at newlines, an unfinished line waits
    in the buffer; a line that starts with a colon is a comment, any other
    line is an event whose data is the line. *)
Fixpoint cutLines (buffer text : string) : list string * string :=
  match text with
  | EmptyString => ([], buffer)
  | String c rest =>
      if Ascii.eqb c (ascii_of_nat 10)
      then (buffer :: fst (cutLines EmptyString rest), snd (cutLines EmptyString rest))
      else cutLines (buffer ++ String c EmptyString)%string rest
  end.

Definition itemOfLine (line : string) : DemuxedItem :=
  match line with
  | String ":" _ => {| item_type := "comment"; item_data := line; item_name := None |}
  | _ => {| item_type := "event"; item_data := line; item_name := None |}
  end.

Definition lineDemux (buffer chunk : string) : list DemuxedItem * string :=
  (map itemOfLine (fst (cutLines buffer chunk)), snd (cutLines buffer chunk)).

Definition syntaxError : JsError :=
  {| error_name := Some "SyntaxError";
     error_safeString := Some "Unexpected token";
     error_cause := None |}.

(** A parser that hands the data to the transmitter as one operation; on the
    data [not-json] it hands over one operation and then throws. *)
Definition parse : Parser :=
  fun _ data _ =>
    if (data =? "not-json")%string
    then {| parse_operations := ["partial"%string]; parse_thrown := Some syntaxError |}
    else {| parse_operations := [data]; parse_thrown := None |}.

Definition dispatch (body : string) : Dispatch :=
  {| request :=
       {| request_url := "https://api.example.com/v1/chat";
          request_method := "GET";
          request_headers := [("Content-Type", "application/json")]%string;
          request_body := body |};
     demuxerFormat := tt;
     chatGenerateParse := parse |}.

Definition world (env : string) (answer : Try Response) : World :=
  {| NODE_ENV := env;
     serverCapitalizeFirstLetter := capitalize;
     JSON_stringify := fun body => body;
     createChatGenerateDispatch := fun _ model chatGenerate _ =>
       match model with
       | EmptyString =>
           Throws {| error_name := Some "Error";
                     error_safeString := Some "No model";
                     error_cause := None |}
       | _ => Returns (dispatch chatGenerate)
       end;
     fetchResponseOrTRPCThrow := fun _ => answer;
     newTextDecoder := tt;
     decode := fun _ bytes => (string_of_list_byte bytes, tt);
     createStreamDemuxer := fun _ => EmptyString;
     demux := lineDemux |}.

Definition input (host : option string) (streaming debug : bool) : Input :=
  {| access := {| dialect := "openai"; oaiHost := host |};
     model := "gpt";
     chatGenerate := "{}";
     context := "conversation";
     streaming := streaming;
     connectionOptions := Some {| debugDispatchRequestbody := Some debug |} |}.

(** An input the dispatch builder refuses. *)
Definition noModel : Input :=
  {| access := {| dialect := "openai"; oaiHost := None |};
     model := EmptyString;
     chatGenerate := "{}";
     context := "conversation";
     streaming := true;
     connectionOptions := None |}.

Definition ctx : Ctx := {| reqSignal := tt |}.

Definition chunk (text : string) : ReadOutcome := ReadValue (list_byte_of_string text).

Definition event (data : string) : DemuxedItem :=
  {| item_type := "event"; item_data := data; item_name := None |}.

Definition line (text : string) : string := (text ++ newline)%string.

Definition aborted : JsError :=
  {| error_name := Some "ResponseAborted"; error_safeString := None; error_cause := None |}.

Definition reset : JsError :=
  {| error_name := Some "TypeError";
     error_safeString := Some "terminated";
     error_cause := Some "{}" |}.

(** A response that streams the given reads. *)
Definition streamOf (reads : list ReadOutcome) : Try Response :=
  Returns {| response_body := Some reads; response_text := Returns EmptyString |}.

(** A response whose whole body is the given text. *)
Definition bodyOf (text : string) : Try Response :=
  Returns {| response_body := None; response_text := Returns text |}.

(** The client goes away after one chunk. *)
Definition abortedStream : Try Response :=
  streamOf [chunk (line "Hi"); ReadThrows aborted].

(** A message that does not parse, packed with the sentinel. *)
Definition brokenThenDone : Try Response :=
  streamOf [chunk (line "not-json" ++ line "[DONE]")].

(** A batch of three messages, the second of which does not parse. *)
Definition brokenInBatch : Try Response :=
  streamOf [chunk (line "Hi" ++ line "not-json" ++ line "late")].

(** The sentinel packed with a trailing message, and a further chunk. *)
Definition doneThenMore : Try Response :=
  streamOf [chunk (line "Hi"); chunk (line "[DONE]" ++ line "late"); chunk (line "more")].

(** A stream that closes without a sentinel. *)
Definition closingStream : Try Response :=
  streamOf [chunk (line ": keep-alive" ++ line "Hi"); ReadDone].

(** A stream that breaks. *)
Definition resetStream : Try Response :=
  streamOf [chunk (line "Hi"); ReadThrows reset].

(** A successful answer without a body stream. *)
Definition noBody : Try Response :=
  Returns {| response_body := None; response_text := Returns EmptyString |}.

Definition refused : Try Response := Throws reset.

(** A successful answer whose [text()] throws. *)
Definition unreadable : Try Response :=
  Returns {| response_body := None; response_text := Throws reset |}.

(** The production world with the given answer, and the two plain inputs. *)
Definition production (answer : Try Response) : World := world "production" answer.

Definition streamingInput : Input := input None true false.

Definition wholeInput : Input := input None false false.

(** A self-hosted endpoint of another dialect: the user set the host. *)
Definition localaiInput : Input :=
  {| access := {| dialect := "localai"; oaiHost := Some "http://localhost:8080" |};
     model := "gpt";
     chatGenerate := "{}";
     context := "conversation";
     streaming := true;
     connectionOptions := None |}.

(** The error of a cancelled fetch body, as the platform's abort signal
    raises it. *)
Definition abortError : JsError :=
  {| error_name := Some "AbortError";
     error_safeString := Some "This operation was aborted";
     error_cause := None |}.

(** The client cancels after one chunk, and the read fails with the abort
    signal's own error. *)
Definition cancelledStream : Try Response :=
  streamOf [chunk (line "Hi"); ReadThrows abortError].

(** A stream of two chunks that cut a line in two. *)
Definition cutStream : Try Response :=
  streamOf [chunk "He"; chunk (line "llo")].

End Demo.

(** * Facts *)

(** Close a goal [In x l] on a computed list. *)
Ltac find_in := vm_compute; repeat first [left; reflexivity | right].

(** Unfold the monad's operations and compute. *)
Ltac run_gen :=
  cbn;
  unfold bind, yieldStart, yieldTermination, yieldError, markTermination,
    onReceivedWireMessage, isIntakeTerminated, callParse, act, ret, setIntake, getIntake;
  cbn.

(** ** Lists of actions *)

Section TraceFacts.

Context {X : Externals}.

Lemma yields_app (t1 t2 : list Action) : yields (t1 ++ t2) = yields t1 ++ yields t2.
Proof.
  induction t1 as [|a t1 IH]; [reflexivity|].
  destruct a; cbn; rewrite ?IH; reflexivity.
Qed.

Lemma yields_map (events : list OutputEvent) : yields (map ActYield events) = events.
Proof.
  induction events as [|e events IH]; [reflexivity|].
  cbn. rewrite IH. reflexivity.
Qed.

Lemma surfaced_app (t1 t2 : list Action) : surfaced (t1 ++ t2) = surfaced t1 ++ surfaced t2.
Proof.
  induction t1 as [|a t1 IH]; [reflexivity|].
  destruct a as [| | | | |[|]| | |]; cbn; rewrite ?IH; reflexivity.
Qed.

Lemma surfaced_map (events : list OutputEvent) : surfaced (map ActYield events) = [].
Proof. induction events as [|e events IH]; [reflexivity|exact IH]. Qed.

Lemma calmItem_calm (a : Action) : calmItem a = true -> calm a = true.
Proof. destruct a as [| | |[| |]| | | | |]; cbn; congruence. Qed.

Lemma calm_yields (q : list Action) :
  Forall (fun a => calm a = true) q -> yields q = [].
Proof.
  induction 1 as [|a q Ha _ IH]; [reflexivity|].
  destruct a; cbn in *; try discriminate; exact IH.
Qed.

Lemma calm_not_in (a : Action) (q : list Action) :
  Forall (fun a => calm a = true) q -> calm a = false -> ~ In a q.
Proof.
  intros Hq Ha Hin. rewrite Forall_forall in Hq.
  specialize (Hq a Hin). congruence.
Qed.

(** An action that is absent from [head] and splits [head ++ tail] splits
    [tail]. *)
Lemma split_past (a : Action) (head tail pre post : list Action) :
  ~ In a head ->
  pre ++ a :: post = head ++ tail ->
  exists p, pre = head ++ p /\ tail = p ++ a :: post.
Proof.
  revert pre. induction head as [|h head IH]; intros pre Hnot Heq.
  - exists pre. split; [reflexivity|]. symmetry. exact Heq.
  - destruct pre as [|b pre]; cbn in Heq; injection Heq as Hhead Hrest.
    + exfalso. apply Hnot. left. symmetry. exact Hhead.
    + destruct (IH pre) as (p & Hpre & Htail).
      * intros Hin. apply Hnot. right. exact Hin.
      * exact Hrest.
      * exists p. subst. split; reflexivity.
Qed.

Lemma In_map_yield (a : Action) (events : list OutputEvent) :
  In a (map ActYield events) -> exists e, a = ActYield e /\ In e events.
Proof.
  intros Hin. apply in_map_iff in Hin. destruct Hin as (e & He & Hin).
  exists e. split; [symmetry; exact He|exact Hin].
Qed.

End TraceFacts.

(** ** The pump *)

Section PumpFacts.

Context {X : Externals}.
Variable w : World.
Variable prettyDialect : string.
Variable dispatchParser : Parser.

Lemma terminated_parsed parse data name st :
  terminated (parsed parse data name st) = terminated st.
Proof. reflexivity. Qed.

(** One turn of the inner loop on a live handler, by cases. *)
Lemma forDemuxedItems_cons i rest st :
  terminated st = false ->
  forDemuxedItems prettyDialect dispatchParser (i :: rest) st =
    if negb (item_type i =? "event")%string then
      before [ActReceived (WireItem i)]
        (forDemuxedItems prettyDialect dispatchParser rest st)
    else if (item_data i =? "[DONE]")%string then
      {| value := tt; after := closed st;
         performed := [ActReceived (WireItem i); ActYield (EvTermination event_done)] |}
    else
      match parse_thrown (dispatchParser (partTransmitter st) (item_data i) (item_name i)) with
      | None =>
          before [ActReceived (WireItem i); ActParse (item_data i) (item_name i)]
            (forDemuxedItems prettyDialect dispatchParser rest
               (parsed dispatchParser (item_data i) (item_name i) st))
      | Some error =>
          {| value := tt;
             after := closed (parsed dispatchParser (item_data i) (item_name i) st);
             performed := [ActReceived (WireItem i); ActParse (item_data i) (item_name i);
                           ActYield (EvError dispatch_parse
                                       (streamParseMessage prettyDialect error i) true)] |}
      end.
Proof.
  unfold terminated. intros Hlive.
  cbn [forDemuxedItems]. unfold bind at 1. cbn. rewrite Hlive.
  destruct (item_type i =? "event")%string; cbn.
  - destruct (item_data i =? "[DONE]")%string; cbn.
    + rewrite Hlive. reflexivity.
    + destruct (parse_thrown (dispatchParser (partTransmitter st) (item_data i) (item_name i)));
        cbn.
      * rewrite Hlive. reflexivity.
      * reflexivity.
  - reflexivity.
Qed.

Lemma LoopShape_before i t rest r :
  Forall (fun a => calmItem a = true) t ->
  surfaced t = [i] ->
  LoopShape prettyDialect rest r ->
  LoopShape prettyDialect (i :: rest) (before t r).
Proof.
  intros Ht Hi (seen & unseen & Hsplit & Hseen & Hcases).
  exists (i :: seen), unseen. cbn [before performed after].
  rewrite surfaced_app, Hi, Hseen, Hsplit.
  split; [reflexivity|]. split; [reflexivity|].
  destruct Hcases as [(Hstill & Hnil & Hcalm) | (Hdone & _ & q & ending & Htrace & Hcalm & Hend)].
  - left. repeat split; try assumption.
    apply Forall_app. split; assumption.
  - right. repeat split; [assumption|discriminate|].
    exists (t ++ q), ending. rewrite Htrace, app_assoc.
    repeat split; [|assumption].
    apply Forall_app. split; assumption.
Qed.

Lemma LoopShape_ending i rest st ending :
  surfaced ending = [i] ->
  ItemEnding prettyDialect ending ->
  LoopShape prettyDialect (i :: rest)
    {| value := tt; after := closed st; performed := ending |}.
Proof.
  intros Hi Hend. exists [i], rest. cbn [performed after].
  repeat split; [assumption|].
  right. repeat split; [discriminate|].
  exists [], ending. repeat split; [constructor|assumption].
Qed.

Lemma forDemuxedItems_shape items : forall st,
  terminated st = false ->
  LoopShape prettyDialect items (forDemuxedItems prettyDialect dispatchParser items st).
Proof.
  induction items as [|i rest IH]; intros st Hlive.
  - exists [], []. cbn. repeat split. left. repeat split; [assumption|constructor].
  - rewrite (forDemuxedItems_cons i rest st Hlive).
    destruct (item_type i =? "event")%string eqn:Htype; cbn [negb].
    + destruct (item_data i =? "[DONE]")%string eqn:Hdata.
      * apply LoopShape_ending; [reflexivity|].
        apply EndDone. unfold isDoneEvent. rewrite Htype, Hdata. reflexivity.
      * destruct (parse_thrown (dispatchParser (partTransmitter st) (item_data i) (item_name i)))
          as [error|] eqn:Hparse.
        -- apply (LoopShape_ending i rest (parsed dispatchParser (item_data i) (item_name i) st));
             [reflexivity|].
           apply EndParse; assumption.
        -- apply LoopShape_before; [|reflexivity|apply IH; exact Hlive].
           constructor; [|constructor; [reflexivity|constructor]].
           cbn. unfold isDoneEvent. rewrite Hdata, andb_false_r. reflexivity.
    + apply LoopShape_before; [|reflexivity|apply IH; exact Hlive].
      constructor; [|constructor].
      cbn. unfold isDoneEvent. rewrite Htype. reflexivity.
Qed.

(** The inner loop performs no [demux]. *)
Lemma LoopShape_no_demux items r chunk batch :
  LoopShape prettyDialect items r -> ~ In (ActDemux chunk batch) (performed r).
Proof.
  intros (seen & unseen & _ & _ & [(_ & _ & Hcalm) | (_ & _ & q & ending & -> & Hcalm & Hend)]) Hin.
  - rewrite Forall_forall in Hcalm. specialize (Hcalm _ Hin). discriminate.
  - apply in_app_or in Hin. destruct Hin as [Hin|Hin].
    + rewrite Forall_forall in Hcalm. specialize (Hcalm _ Hin). discriminate.
    + destruct Hend; cbn in Hin; intuition discriminate.
Qed.

(** One turn of the pump on a live handler, by the outcome of the read. *)
Lemma dataPump_closed dec dmx reads st :
  terminated st = false ->
  reads = [] \/ (exists later, reads = ReadDone :: later) ->
  dataPump w prettyDialect dispatchParser dec dmx reads st =
    {| value := tt; after := closed st;
       performed := [ActRead ReadDone; ActYield (EvTermination dispatch_close)] |}.
Proof.
  unfold terminated. intros Hlive [-> | [later ->]]; run_gen; rewrite Hlive; reflexivity.
Qed.

Lemma dataPump_throws dec dmx error later st :
  terminated st = false ->
  dataPump w prettyDialect dispatchParser dec dmx (ReadThrows error :: later) st =
    {| value := tt; after := closed st;
       performed :=
         ActRead (ReadThrows error)
         :: (if isResponseAborted error then [ActMarkTermination]
             else [ActYield (EvError dispatch_read
                               (streamReadMessage prettyDialect error) false)]) |}.
Proof.
  unfold terminated, isResponseAborted. intros Hlive. run_gen.
  destruct (match error_name error with
            | Some n => (n =? "ResponseAborted")%string
            | None => false
            end);
    run_gen; rewrite ?Hlive; reflexivity.
Qed.

Lemma dataPump_value dec dmx value later st :
  dataPump w prettyDialect dispatchParser dec dmx (ReadValue value :: later) st =
    let decoded := decode w dec value in
    let demuxed := demux w dmx (fst decoded) in
    let r := forDemuxedItems prettyDialect dispatchParser (fst demuxed) st in
    before [ActRead (ReadValue value); ActDemux (fst decoded) (fst demuxed)]
      (if terminated (after r) then before (performed r) (ret tt (after r))
       else before (performed r)
              (dataPump w prettyDialect dispatchParser (snd decoded) (snd demuxed) later
                 (after r))).
Proof.
  unfold terminated. run_gen.
  destruct (intakeTerminated (intakeHandler (after (forDemuxedItems prettyDialect dispatchParser
              (fst (demux w dmx (fst (decode w dec value)))) st)))); reflexivity.
Qed.

Lemma PumpShape_before t r :
  Forall (fun a => calm a = true) t ->
  PumpShape prettyDialect r -> PumpShape prettyDialect (before t r).
Proof.
  intros Ht (Hdone & q & ending & Htrace & Hcalm & Hend).
  split; [exact Hdone|].
  exists (t ++ q), ending. cbn [before performed].
  rewrite Htrace, app_assoc. repeat split; [|assumption].
  apply Forall_app. split; assumption.
Qed.

(** The pump ends the run whatever it reads. *)
Lemma dataPump_shape reads : forall dec dmx st,
  terminated st = false ->
  PumpShape prettyDialect (dataPump w prettyDialect dispatchParser dec dmx reads st).
Proof.
  induction reads as [|[value| |error] later IH]; intros dec dmx st Hlive.
  - rewrite dataPump_closed by auto.
    split; [reflexivity|]. exists [], [ActRead ReadDone; ActYield (EvTermination dispatch_close)].
    repeat split; [constructor|left; constructor].
  - rewrite dataPump_value. cbv zeta.
    apply PumpShape_before; [repeat constructor|].
    destruct (forDemuxedItems_shape (fst (demux w dmx (fst (decode w dec value)))) st Hlive)
      as (seen & unseen & _ & _
          & [(Hstill & _ & Hcalm) | (Hdone & _ & q & ending & Htrace & Hcalm & Hend)]).
    + rewrite Hstill. apply PumpShape_before.
      * eapply Forall_impl; [|exact Hcalm]. exact calmItem_calm.
      * apply IH. exact Hstill.
    + rewrite Hdone. split; [exact Hdone|].
      exists q, ending. cbn [before performed ret]. rewrite app_nil_r.
      repeat split; [assumption| |right; assumption].
      eapply Forall_impl; [|exact Hcalm]. exact calmItem_calm.
  - rewrite dataPump_closed by eauto.
    split; [reflexivity|]. exists [], [ActRead ReadDone; ActYield (EvTermination dispatch_close)].
    repeat split; [constructor|left; constructor].
  - rewrite dataPump_throws by assumption.
    split; [reflexivity|].
    destruct (isResponseAborted error) eqn:Habort.
    + exists [], [ActRead (ReadThrows error); ActMarkTermination].
      repeat split; [constructor|left; constructor; assumption].
    + eexists [], _. repeat split; [constructor|left; apply EndReadError; assumption].
Qed.

(** An ending that yields ends with the yield of a terminal event. *)
Lemma ItemEnding_last ending :
  ItemEnding prettyDialect ending ->
  exists q e, ending = q ++ [ActYield e] /\ isTerminal e = true.
Proof.
  intros [i Hi | i error Htype Hdata].
  - exists [ActReceived (WireItem i)], (EvTermination event_done). split; reflexivity.
  - eexists [ActReceived (WireItem i); ActParse (item_data i) (item_name i)], _.
    split; reflexivity.
Qed.

End PumpFacts.

(** ** The invocation *)

Section RunFacts.

Context {X : Externals}.
Variable w : World.
Variable input : Input.
Variable ctx : Ctx.

Lemma before_before {A : Type} (t1 t2 : list Action) (r : Outcome A) :
  before t1 (before t2 r) = before (t1 ++ t2) r.
Proof. unfold before. cbn. rewrite app_assoc. reflexivity. Qed.

Lemma debugClientPrint_trace dispatch st :
  debugClientPrint w input dispatch st =
    {| value := tt; after := st; performed := map ActYield (debugEvents w input dispatch) |}.
Proof.
  unfold debugClientPrint, debugEvents, debugFlag.
  destruct (connectionOptions input) as [[[[|]|]]|]; destruct (isDevelopment w); reflexivity.
Qed.

Lemma debugEvents_cases dispatch :
  (debugEvents w input dispatch = [] /\ debugFlag input && isDevelopment w = false)
  \/ (debugEvents w input dispatch
        = [EvDebugClientPrint (JSON_stringify w (request_body (request dispatch)))]
      /\ debugFlag input = true /\ isDevelopment w = true).
Proof.
  unfold debugEvents.
  destruct (debugFlag input); destruct (isDevelopment w); cbn; auto.
Qed.

(** Lines 88-104, by cases. *)
Lemma readWholeResponse_cases dispatch dispatchResponse :
  readWholeResponse (prettyDialectOf w input) dispatch dispatchResponse (started w input) =
    before [ActText (response_text dispatchResponse)]
      match response_text dispatchResponse with
      | Throws error =>
          {| value := tt; after := closed (started w input);
             performed := [ActYield (EvError dispatch_read (readMessage w input error) false)] |}
      | Returns dispatchBody =>
          before [ActReceived (WireBody dispatchBody); ActParse dispatchBody None]
            match parse_thrown (wholeParse w input dispatch dispatchBody) with
            | None =>
                {| value := tt;
                   after := parsed (chatGenerateParse dispatch) dispatchBody None (started w input);
                   performed := [] |}
            | Some error =>
                {| value := tt;
                   after := closed (parsed (chatGenerateParse dispatch) dispatchBody None (started w input));
                   performed :=
                     [ActYield (EvError dispatch_parse
                                  (parseMessage w input error dispatchBody) true)] |}
            end
      end.
Proof.
  unfold readWholeResponse, wholeParse.
  destruct (response_text dispatchResponse) as [dispatchBody|error]; run_gen.
  - destruct (parse_thrown (chatGenerateParse dispatch (newPartTransmitter (prettyDialectOf w input))
                dispatchBody None)); reflexivity.
  - reflexivity.
Qed.

(** Lines 60-104 and the entry of the pump, by cases. *)
Lemma connect_cases dispatch :
  connect w (prettyDialectOf w input) input (reqSignal ctx) dispatch (started w input) =
    before [ActFetch (fetchArgs w input ctx dispatch)]
      match fetchResponseOrTRPCThrow w (fetchArgs w input ctx dispatch) with
      | Throws error =>
          {| value := tt; after := closed (started w input);
             performed :=
               [ActYield (EvError dispatch_fetch (fetchMessage w input dispatch error)
                            (showOnConsoleForNonCustomServers (access input)))] |}
      | Returns dispatchResponse =>
          if streaming input then pumpOf w input dispatch dispatchResponse
          else readWholeResponse (prettyDialectOf w input) dispatch dispatchResponse (started w input)
      end.
Proof.
  unfold connect. fold (fetchArgs w input ctx dispatch).
  unfold bind at 1. cbn [act value after performed].
  destruct (fetchResponseOrTRPCThrow w (fetchArgs w input ctx dispatch))
    as [dispatchResponse|error].
  - destruct (streaming input); cbn [negb]; reflexivity.
  - reflexivity.
Qed.

(** The invocation, stage by stage. *)
Lemma chatGenerateContent_stages :
  chatGenerateContent w input ctx =
    before [ActYield EvStart]
      match builtDispatch w input with
      | Throws error =>
          {| value := tt; after := closed (started w input);
             performed :=
               [ActYield (EvError dispatch_prepare (prepareMessage w input error) false)] |}
      | Returns dispatch =>
          before (map ActYield (debugEvents w input dispatch))
            (connect w (prettyDialectOf w input) input (reqSignal ctx) dispatch (started w input))
      end.
Proof.
  unfold chatGenerateContent, mutation, builtDispatch.
  unfold bind at 1. unfold yieldStart at 1 2 3. run_gen.
  destruct (createChatGenerateDispatch w (access input) (model input) (chatGenerate input)
              (streaming input)) as [dispatch|error].
  - fold (prettyDialectOf w input). fold (started w input). rewrite debugClientPrint_trace. reflexivity.
  - reflexivity.
Qed.

Lemma pumpOf_shape dispatch dispatchResponse :
  PumpShape (prettyDialectOf w input) (pumpOf w input dispatch dispatchResponse).
Proof. apply dataPump_shape. reflexivity. Qed.

(** Every invocation takes one of the six paths. *)
Theorem trace_path : Path w input ctx (trace w input ctx).
Proof.
  unfold trace. rewrite chatGenerateContent_stages.
  destruct (builtDispatch w input) as [dispatch|error] eqn:Hbuilt.
  - rewrite connect_cases.
    destruct (fetchResponseOrTRPCThrow w (fetchArgs w input ctx dispatch))
      as [dispatchResponse|error] eqn:Hfetched.
    + destruct (streaming input) eqn:Hstreaming.
      * destruct (pumpOf_shape dispatch dispatchResponse)
          as (_ & q & ending & Htrace & Hcalm & Hend).
        cbn [before performed app]. rewrite Htrace.
        eapply PathStream; eassumption.
      * rewrite readWholeResponse_cases.
        destruct (response_text dispatchResponse) as [dispatchBody|error] eqn:Htext.
        -- destruct (parse_thrown (wholeParse w input dispatch dispatchBody))
             as [error|] eqn:Hparse;
             cbn [before performed app].
           ++ eapply PathParse; eassumption.
           ++ eapply PathWhole; eassumption.
        -- cbn [before performed app].
           eapply PathRead; eassumption.
    + cbn [before performed app].
      eapply PathFetch; eassumption.
  - cbn [before performed app]. apply PathPrepare. exact Hbuilt.
Qed.

(** The streaming run is the pump, after the start, the diagnostic and the
    fetch. *)
Lemma streaming_stage dispatch dispatchResponse :
  builtDispatch w input = Returns dispatch ->
  fetchResponseOrTRPCThrow w (fetchArgs w input ctx dispatch) = Returns dispatchResponse ->
  streaming input = true ->
  chatGenerateContent w input ctx =
    before (ActYield EvStart :: map ActYield (debugEvents w input dispatch)
              ++ [ActFetch (fetchArgs w input ctx dispatch)])
      (pumpOf w input dispatch dispatchResponse).
Proof.
  intros Hbuilt Hfetched Hstreaming.
  rewrite chatGenerateContent_stages, Hbuilt, connect_cases, Hfetched, Hstreaming.
  rewrite !before_before. reflexivity.
Qed.

Lemma In_head (a : Action) (events : list OutputEvent) (l : list Action) :
  In a (ActYield EvStart :: map ActYield events ++ l) ->
  (exists e, a = ActYield e) \/ In a l.
Proof.
  intros [<- | Hin]; [left; eauto|].
  apply in_app_or in Hin. destruct Hin as [Hin|Hin]; [|right; exact Hin].
  apply In_map_yield in Hin. destruct Hin as (e & -> & _). left. eauto.
Qed.

(** A pump action in the trace tells that the run streamed; the trace is
    then calm up to one of the five endings. *)
Lemma pump_action_streams (a : Action) :
  isPumpAction a = true ->
  In a (trace w input ctx) ->
  streaming input = true /\
  terminated (after (chatGenerateContent w input ctx)) = true /\
  exists dispatch dispatchResponse head q ending,
    builtDispatch w input = Returns dispatch /\
    fetchResponseOrTRPCThrow w (fetchArgs w input ctx dispatch) = Returns dispatchResponse /\
    head = ActYield EvStart :: map ActYield (debugEvents w input dispatch)
             ++ [ActFetch (fetchArgs w input ctx dispatch)] /\
    trace w input ctx = (head ++ q) ++ ending /\
    performed (pumpOf w input dispatch dispatchResponse) = q ++ ending /\
    Forall (fun a => calm a = true) q /\
    (ReadEnding (prettyDialectOf w input) ending \/ ItemEnding (prettyDialectOf w input) ending) /\
    In a (q ++ ending).
Proof.
  intros Hpump Hin.
  pose proof trace_path as Hpath.
  remember (trace w input ctx) as t eqn:Ht.
  destruct Hpath as [error Hbuilt
                    | dispatch error Hbuilt Hfetched
                    | dispatch dispatchResponse error Hbuilt Hfetched Hstreaming Htext
                    | dispatch dispatchResponse dispatchBody Hbuilt Hfetched Hstreaming Htext Hparse
                    | dispatch dispatchResponse dispatchBody error Hbuilt Hfetched Hstreaming
                        Htext Hparse
                    | dispatch dispatchResponse q ending Hbuilt Hfetched Hstreaming Htrace
                        Hcalm Hend].
  1: cbn in Hin; destruct Hin as [<-|[<-|[]]]; discriminate.
  1-4: apply In_head in Hin; destruct Hin as [(e & ->)|Hin]; [discriminate|];
       cbn in Hin; repeat (destruct Hin as [<-|Hin]; [discriminate|]); destruct Hin.
  split; [exact Hstreaming|]. split.
  - rewrite (streaming_stage dispatch dispatchResponse Hbuilt Hfetched Hstreaming).
    exact (proj1 (pumpOf_shape dispatch dispatchResponse)).
  - exists dispatch, dispatchResponse,
      (ActYield EvStart :: map ActYield (debugEvents w input dispatch)
         ++ [ActFetch (fetchArgs w input ctx dispatch)]), q, ending.
    repeat split; try assumption.
    + cbn [app]. rewrite <- !app_assoc. reflexivity.
    + apply In_head in Hin. destruct Hin as [(e & ->)|Hin].
      * apply in_or_app.
        destruct Hend as [Hend|Hend]; destruct Hend; cbn in Hpump; discriminate.
      * destruct Hin as [<-|Hin]; [discriminate|exact Hin].
Qed.

(** The events before the ending of a streaming run: the start and the
    diagnostic. *)
Lemma head_yields dispatch q :
  Forall (fun a => calm a = true) q ->
  yields ((ActYield EvStart :: map ActYield (debugEvents w input dispatch)
             ++ [ActFetch (fetchArgs w input ctx dispatch)]) ++ q)
    = EvStart :: debugEvents w input dispatch.
Proof.
  intros Hcalm. rewrite yields_app. cbn [yields]. rewrite yields_app, yields_map.
  cbn [yields]. rewrite (calm_yields q Hcalm), !app_nil_r. reflexivity.
Qed.

Lemma debugEvents_not_terminal dispatch :
  Forall (fun e => isTerminal e = false) (EvStart :: debugEvents w input dispatch).
Proof.
  constructor; [reflexivity|].
  destruct (debugEvents_cases dispatch) as [(-> & _)|(-> & _)]; repeat constructor.
Qed.


End RunFacts.

(** ** Further facts about traces and the pump *)

Section MoreTraceFacts.

Context {X : Externals}.

Lemma fetches_app (t1 t2 : list Action) : fetches (t1 ++ t2) = fetches t1 ++ fetches t2.
Proof.
  induction t1 as [|a t1 IH]; [reflexivity|].
  destruct a; cbn; rewrite ?IH; reflexivity.
Qed.

Lemma readsOf_app (t1 t2 : list Action) : readsOf (t1 ++ t2) = readsOf t1 ++ readsOf t2.
Proof.
  induction t1 as [|a t1 IH]; [reflexivity|].
  destruct a; cbn; rewrite ?IH; reflexivity.
Qed.

Lemma valuesOf_app (t1 t2 : list Action) : valuesOf (t1 ++ t2) = valuesOf t1 ++ valuesOf t2.
Proof.
  induction t1 as [|a t1 IH]; [reflexivity|].
  destruct a as [| | |[| |]| | | | |]; cbn; rewrite ?IH; reflexivity.
Qed.

Lemma demuxesOf_app (t1 t2 : list Action) :
  demuxesOf (t1 ++ t2) = demuxesOf t1 ++ demuxesOf t2.
Proof.
  induction t1 as [|a t1 IH]; [reflexivity|].
  destruct a; cbn; rewrite ?IH; reflexivity.
Qed.

Lemma parseCalls_app (t1 t2 : list Action) :
  parseCalls (t1 ++ t2) = parseCalls t1 ++ parseCalls t2.
Proof.
  induction t1 as [|a t1 IH]; [reflexivity|].
  destruct a; cbn; rewrite ?IH; reflexivity.
Qed.

Lemma fetches_map (events : list OutputEvent) : fetches (map ActYield events) = [].
Proof. induction events as [|e events IH]; [reflexivity|exact IH]. Qed.

Lemma parseCalls_map (events : list OutputEvent) : parseCalls (map ActYield events) = [].
Proof. induction events as [|e events IH]; [reflexivity|exact IH]. Qed.

Lemma readsOf_map (events : list OutputEvent) : readsOf (map ActYield events) = [].
Proof. induction events as [|e events IH]; [reflexivity|exact IH]. Qed.

Lemma valuesOf_map (events : list OutputEvent) : valuesOf (map ActYield events) = [].
Proof. induction events as [|e events IH]; [reflexivity|exact IH]. Qed.

Lemma demuxesOf_map (events : list OutputEvent) : demuxesOf (map ActYield events) = [].
Proof. induction events as [|e events IH]; [reflexivity|exact IH]. Qed.

Lemma fetches_none (t : list Action) :
  (forall args, ~ In (ActFetch args) t) -> fetches t = [].
Proof.
  induction t as [|a t IH]; intros Hnone; [reflexivity|].
  assert (Hrest : fetches t = []).
  { apply IH. intros args Hin. apply (Hnone args). right. exact Hin. }
  destruct a; cbn; try exact Hrest.
  exfalso. apply (Hnone args). left. reflexivity.
Qed.

(** The actions of the inner loop that leave the handler live are neither
    reads nor calls of the demultiplexer. *)
Lemma calmItem_quiet (t : list Action) :
  Forall (fun a => calmItem a = true) t ->
  readsOf t = [] /\ valuesOf t = [] /\ demuxesOf t = [].
Proof.
  induction 1 as [|a t Ha _ IH]; [repeat split|].
  destruct a as [| | | | |[|]| | |]; cbn in *; try discriminate; exact IH.
Qed.

Lemma calm_no_warning (q : list Action) :
  Forall (fun a => calm a = true) q ->
  Forall (fun a => isConsoleWarn a = false) q.
Proof.
  intros Hcalm. eapply Forall_impl; [|exact Hcalm].
  intros a Ha. destruct a; try reflexivity. discriminate.
Qed.

Lemma map_yield_no_warning (events : list OutputEvent) :
  Forall (fun a => isConsoleWarn a = false) (map ActYield events).
Proof. induction events; constructor; [reflexivity|assumption]. Qed.

End MoreTraceFacts.

Section MorePumpFacts.

Context {X : Externals}.
Variable w : World.
Variable prettyDialect : string.
Variable dispatchParser : Parser.

Lemma ItemEnding_quiet (ending : list Action) :
  ItemEnding prettyDialect ending ->
  readsOf ending = [] /\ valuesOf ending = [] /\ demuxesOf ending = [].
Proof. intros [i Hi|i error Htype Hdata]; repeat split. Qed.

(** The inner loop neither reads nor demuxes. *)
Lemma LoopShape_quiet (items : list DemuxedItem) (r : Outcome unit) :
  LoopShape prettyDialect items r ->
  readsOf (performed r) = [] /\ valuesOf (performed r) = [] /\ demuxesOf (performed r) = [].
Proof.
  intros (seen & unseen & _ & _
          & [(_ & _ & Hcalm) | (_ & _ & q & ending & -> & Hcalm & Hend)]).
  - exact (calmItem_quiet _ Hcalm).
  - destruct (calmItem_quiet _ Hcalm) as (Hr & Hv & Hd).
    destruct (ItemEnding_quiet _ Hend) as (Hr' & Hv' & Hd').
    rewrite readsOf_app, valuesOf_app, demuxesOf_app, Hr, Hv, Hd, Hr', Hv', Hd'.
    repeat split.
Qed.

(** One turn of the pump on a byte chunk: the loop over the batch, and then
    either the end of the run or the next turn. *)
Lemma dataPump_value_cases dec dmx value later st :
  let decoded := decode w dec value in
  let demuxed := demux w dmx (fst decoded) in
  let r := forDemuxedItems prettyDialect dispatchParser (fst demuxed) st in
  (terminated (after r) = true /\
   dataPump w prettyDialect dispatchParser dec dmx (ReadValue value :: later) st
     = {| value := tt; after := after r;
          performed := [ActRead (ReadValue value); ActDemux (fst decoded) (fst demuxed)]
                         ++ performed r |})
  \/
  (terminated (after r) = false /\
   dataPump w prettyDialect dispatchParser dec dmx (ReadValue value :: later) st
     = before ([ActRead (ReadValue value); ActDemux (fst decoded) (fst demuxed)]
                 ++ performed r)
         (dataPump w prettyDialect dispatchParser (snd decoded) (snd demuxed) later
            (after r))).
Proof.
  cbv zeta. rewrite dataPump_value. cbv zeta.
  destruct (terminated (after (forDemuxedItems prettyDialect dispatchParser
              (fst (demux w dmx (fst (decode w dec value)))) st))).
  - left. split; [reflexivity|].
    unfold before, ret. cbn. rewrite app_nil_r. reflexivity.
  - right. split; [reflexivity|].
    unfold before. cbn. reflexivity.
Qed.

(** The pump reads the stream in order, one read at a time, and reads nothing
    behind the read that ended the run. *)
Lemma dataPump_reads reads : forall dec dmx st,
  terminated st = false ->
  exists unread,
    reads ++ [ReadDone]
      = readsOf (performed (dataPump w prettyDialect dispatchParser dec dmx reads st))
          ++ unread.
Proof.
  induction reads as [|[value| |error] later IH]; intros dec dmx st Hlive.
  - rewrite dataPump_closed by auto. exists []. reflexivity.
  - pose proof (forDemuxedItems_shape prettyDialect dispatchParser
                  (fst (demux w dmx (fst (decode w dec value)))) st Hlive) as Hloop.
    destruct (LoopShape_quiet _ _ Hloop) as (Hquiet & _ & _).
    destruct (dataPump_value_cases dec dmx value later st) as [(Hdone & ->)|(Hstill & ->)];
      cbn [before performed app readsOf]; rewrite ?readsOf_app, Hquiet; cbn [app].
    + exists (later ++ [ReadDone]). reflexivity.
    + destruct (IH (snd (decode w dec value))
                  (snd (demux w dmx (fst (decode w dec value)))) _ Hstill) as (unread & Hread).
      exists unread. rewrite <- Hread. reflexivity.
  - rewrite dataPump_closed by eauto. exists (later ++ [ReadDone]). reflexivity.
  - rewrite dataPump_throws by assumption. exists (later ++ [ReadDone]).
    destruct (isResponseAborted error); reflexivity.
Qed.

(** Every chunk the pump reads goes once through the decoder and the
    demultiplexer, in order, each call on the state the call before left. *)
Lemma dataPump_decodes reads : forall dec dmx st,
  terminated st = false ->
  demuxesOf (performed (dataPump w prettyDialect dispatchParser dec dmx reads st))
    = decodeAll w dec dmx
        (valuesOf (performed (dataPump w prettyDialect dispatchParser dec dmx reads st))).
Proof.
  induction reads as [|[value| |error] later IH]; intros dec dmx st Hlive.
  - rewrite dataPump_closed by auto. reflexivity.
  - pose proof (forDemuxedItems_shape prettyDialect dispatchParser
                  (fst (demux w dmx (fst (decode w dec value)))) st Hlive) as Hloop.
    destruct (LoopShape_quiet _ _ Hloop) as (_ & Hvalues & Hdemuxes).
    destruct (dataPump_value_cases dec dmx value later st) as [(Hdone & ->)|(Hstill & ->)];
      cbn [before performed app demuxesOf valuesOf];
      rewrite ?demuxesOf_app, ?valuesOf_app, Hvalues, Hdemuxes; cbn [app decodeAll].
    + reflexivity.
    + rewrite (IH _ _ _ Hstill). reflexivity.
  - rewrite dataPump_closed by eauto. reflexivity.
  - rewrite dataPump_throws by assumption. destruct (isResponseAborted error); reflexivity.
Qed.

Lemma replay_app parse transmitter calls1 calls2 :
  replay parse transmitter (calls1 ++ calls2)
    = replay parse (replay parse transmitter calls1) calls2.
Proof. unfold replay. apply fold_left_app. Qed.

(** The inner loop leaves in the transmitter what its parse calls put there. *)
Lemma forDemuxedItems_transmits items : forall st,
  terminated st = false ->
  partTransmitter (after (forDemuxedItems prettyDialect dispatchParser items st))
    = replay dispatchParser (partTransmitter st)
        (parseCalls (performed (forDemuxedItems prettyDialect dispatchParser items st))).
Proof.
  induction items as [|i rest IH]; intros st Hlive; [reflexivity|].
  rewrite (forDemuxedItems_cons prettyDialect dispatchParser i rest st Hlive).
  destruct (negb (item_type i =? "event")%string).
  - cbn [before performed after app parseCalls]. apply IH. exact Hlive.
  - destruct (item_data i =? "[DONE]")%string; [reflexivity|].
    destruct (parse_thrown (dispatchParser (partTransmitter st) (item_data i) (item_name i))).
    + reflexivity.
    + cbn [before performed after app parseCalls].
      rewrite IH by exact Hlive. reflexivity.
Qed.

Lemma dataPump_transmits reads : forall dec dmx st,
  terminated st = false ->
  partTransmitter (after (dataPump w prettyDialect dispatchParser dec dmx reads st))
    = replay dispatchParser (partTransmitter st)
        (parseCalls (performed (dataPump w prettyDialect dispatchParser dec dmx reads st))).
Proof.
  induction reads as [|[value| |error] later IH]; intros dec dmx st Hlive.
  - rewrite dataPump_closed by auto. reflexivity.
  - pose proof (forDemuxedItems_transmits
                  (fst (demux w dmx (fst (decode w dec value)))) st Hlive) as Hloop.
    destruct (dataPump_value_cases dec dmx value later st) as [(Hdone & ->)|(Hstill & ->)];
      cbn [before performed after app parseCalls].
    + exact Hloop.
    + rewrite parseCalls_app, replay_app, <- Hloop. apply IH. exact Hstill.
  - rewrite dataPump_closed by eauto. reflexivity.
  - rewrite dataPump_throws by assumption. destruct (isResponseAborted error); reflexivity.
Qed.

(** The inner loop calls the parse function on the data and the name of items
    of the batch that are events and not the sentinel, and on nothing else. *)
Lemma forDemuxedItems_parses items : forall st data name,
  terminated st = false ->
  In (ActParse data name)
    (performed (forDemuxedItems prettyDialect dispatchParser items st)) ->
  exists item,
    In item items /\
    (item_type item =? "event")%string = true /\
    (item_data item =? "[DONE]")%string = false /\
    data = item_data item /\ name = item_name item.
Proof.
  induction items as [|i rest IH]; intros st data name Hlive Hin; [destruct Hin|].
  rewrite (forDemuxedItems_cons prettyDialect dispatchParser i rest st Hlive) in Hin.
  destruct (item_type i =? "event")%string eqn:Htype; cbn [negb] in Hin.
  - destruct (item_data i =? "[DONE]")%string eqn:Hdata.
    + cbn in Hin. intuition discriminate.
    + assert (Hhere : ActParse (item_data i) (item_name i) = ActParse data name ->
                      exists item,
                        In item (i :: rest) /\
                        (item_type item =? "event")%string = true /\
                        (item_data item =? "[DONE]")%string = false /\
                        data = item_data item /\ name = item_name item).
      { intros Heq. injection Heq as <- <-. exists i. repeat split; try assumption.
        left. reflexivity. }
      destruct (parse_thrown (dispatchParser (partTransmitter st) (item_data i) (item_name i))).
      * cbn in Hin. destruct Hin as [Hin|[Hin|[Hin|[]]]]; try discriminate.
        exact (Hhere Hin).
      * cbn [before performed app] in Hin.
        destruct Hin as [Hin|[Hin|Hin]]; [discriminate|exact (Hhere Hin)|].
        destruct (IH (parsed dispatchParser (item_data i) (item_name i) st) data name
                    Hlive Hin) as (item & Hitem & Hrest).
        exists item. split; [right; exact Hitem|exact Hrest].
  - cbn [before performed app] in Hin. destruct Hin as [Hin|Hin]; [discriminate|].
    destruct (IH _ data name Hlive Hin) as (item & Hitem & Hrest).
    exists item. split; [right; exact Hitem|exact Hrest].
Qed.

Lemma dataPump_parses reads : forall dec dmx st data name,
  terminated st = false ->
  In (ActParse data name)
    (performed (dataPump w prettyDialect dispatchParser dec dmx reads st)) ->
  exists chunk items item,
    In (ActDemux chunk items)
      (performed (dataPump w prettyDialect dispatchParser dec dmx reads st)) /\
    In item items /\
    (item_type item =? "event")%string = true /\
    (item_data item =? "[DONE]")%string = false /\
    data = item_data item /\ name = item_name item.
Proof.
  induction reads as [|[value| |error] later IH]; intros dec dmx st data name Hlive Hin.
  - rewrite dataPump_closed in Hin by auto. cbn in Hin. intuition discriminate.
  - destruct (dataPump_value_cases dec dmx value later st) as [(Hdone & Heq)|(Hstill & Heq)];
      rewrite Heq in Hin |- *; cbn [before performed app] in Hin |- *;
      destruct Hin as [Hin|[Hin|Hin]]; try discriminate.
    + destruct (forDemuxedItems_parses _ _ _ _ Hlive Hin) as (item & Hitem & Hrest).
      eexists _, _, item. split; [right; left; reflexivity|]. split; assumption.
    + apply in_app_or in Hin. destruct Hin as [Hin|Hin].
      * destruct (forDemuxedItems_parses _ _ _ _ Hlive Hin) as (item & Hitem & Hrest).
        eexists _, _, item. split; [right; left; reflexivity|]. split; assumption.
      * destruct (IH _ _ _ data name Hstill Hin)
          as (chunk & items & item & Hdemux & Hitem & Hrest).
        exists chunk, items, item. split; [|split; assumption].
        right. right. apply in_or_app. right. exact Hdemux.
  - rewrite dataPump_closed in Hin by eauto. cbn in Hin. intuition discriminate.
  - rewrite dataPump_throws in Hin by assumption.
    destruct (isResponseAborted error); cbn in Hin; intuition discriminate.
Qed.

(** The inner loop calls the parse function once on every item it surfaces
    that is an event and not the sentinel, in order. *)
Lemma forDemuxedItems_parses_surfaced items : forall st,
  terminated st = false ->
  parseCalls (performed (forDemuxedItems prettyDialect dispatchParser items st))
    = map callOf
        (filter parsable
           (surfaced (performed (forDemuxedItems prettyDialect dispatchParser items st)))).
Proof.
  induction items as [|i rest IH]; intros st Hlive; [reflexivity|].
  rewrite (forDemuxedItems_cons prettyDialect dispatchParser i rest st Hlive).
  assert (Hparsable : parsable i
                      = (item_type i =? "event")%string
                        && negb (item_data i =? "[DONE]")%string) by reflexivity.
  destruct (item_type i =? "event")%string; cbn [negb andb] in *.
  - destruct (item_data i =? "[DONE]")%string; cbn [negb] in Hparsable.
    + cbn [performed parseCalls surfaced filter]. rewrite Hparsable. reflexivity.
    + destruct (parse_thrown (dispatchParser (partTransmitter st) (item_data i) (item_name i))).
      * cbn [performed parseCalls surfaced filter]. rewrite Hparsable. reflexivity.
      * cbn [before performed app parseCalls surfaced filter].
        rewrite Hparsable. cbn [map].
        rewrite <- IH by exact Hlive. reflexivity.
  - cbn [before performed app parseCalls surfaced filter].
    rewrite Hparsable. apply IH. exact Hlive.
Qed.

Lemma dataPump_parses_surfaced reads : forall dec dmx st,
  terminated st = false ->
  parseCalls (performed (dataPump w prettyDialect dispatchParser dec dmx reads st))
    = map callOf
        (filter parsable
           (surfaced (performed (dataPump w prettyDialect dispatchParser dec dmx reads st)))).
Proof.
  induction reads as [|[value| |error] later IH]; intros dec dmx st Hlive.
  - rewrite dataPump_closed by auto. reflexivity.
  - pose proof (forDemuxedItems_parses_surfaced
                  (fst (demux w dmx (fst (decode w dec value)))) st Hlive) as Hloop.
    destruct (dataPump_value_cases dec dmx value later st) as [(Hdone & ->)|(Hstill & ->)];
      cbn [before performed app parseCalls surfaced].
    + exact Hloop.
    + rewrite parseCalls_app, surfaced_app, filter_app, map_app, Hloop, (IH _ _ _ Hstill).
      reflexivity.
  - rewrite dataPump_closed by eauto. reflexivity.
  - rewrite dataPump_throws by assumption. destruct (isResponseAborted error); reflexivity.
Qed.


End MorePumpFacts.

(** ** The pump, exactly *)

Section ExactPumpFacts.

Context {X : Externals}.
Variable w : World.
Variable prettyDialect : string.
Variable dispatchParser : Parser.

Lemma quietCalls_app transmitter calls1 calls2 :
  quietCalls dispatchParser transmitter (calls1 ++ calls2)
  <-> quietCalls dispatchParser transmitter calls1 /\
      quietCalls dispatchParser (replay dispatchParser transmitter calls1) calls2.
Proof.
  revert transmitter. induction calls1 as [|call calls1 IH]; intros transmitter.
  - cbn. tauto.
  - cbn [app quietCalls]. rewrite IH. unfold replay. cbn [fold_left]. tauto.
Qed.

Lemma quietCalls_removelast transmitter calls :
  quietCalls dispatchParser transmitter calls ->
  quietCalls dispatchParser transmitter (removelast calls).
Proof.
  revert transmitter. induction calls as [|call calls IH]; intros transmitter Hquiet.
  - exact I.
  - destruct calls as [|next calls]; [exact I|].
    change (removelast (call :: next :: calls)) with (call :: removelast (next :: calls)).
    destruct Hquiet as (Hcall & Hlater). split; [exact Hcall|].
    apply IH. exact Hlater.
Qed.

Lemma calmItem_received i :
  isDoneEvent i = false -> calmItem (ActReceived (WireItem i)) = true.
Proof. intros Hi. cbn. rewrite Hi. reflexivity. Qed.

Lemma turnsOf_parsable i rest :
  parsable i = true ->
  turnsOf (i :: rest)
    = ActReceived (WireItem i) :: ActParse (item_data i) (item_name i) :: turnsOf rest.
Proof. intros Hi. unfold turnsOf. cbn [flat_map]. unfold turnOf. rewrite Hi. reflexivity. Qed.

Lemma turnsOf_skipped i rest :
  parsable i = false ->
  turnsOf (i :: rest) = ActReceived (WireItem i) :: turnsOf rest.
Proof. intros Hi. unfold turnsOf. cbn [flat_map]. unfold turnOf. rewrite Hi. reflexivity. Qed.

Lemma callsOf_parsable i rest :
  parsable i = true -> callsOf (i :: rest) = callOf i :: callsOf rest.
Proof. intros Hi. unfold callsOf. cbn [filter]. rewrite Hi. reflexivity. Qed.

Lemma callsOf_skipped i rest :
  parsable i = false -> callsOf (i :: rest) = callsOf rest.
Proof. intros Hi. unfold callsOf. cbn [filter]. rewrite Hi. reflexivity. Qed.

Lemma turnsOf_calm items :
  Forall (fun i => isDoneEvent i = false) items ->
  Forall (fun a => calm a = true) (turnsOf items).
Proof.
  induction 1 as [|i rest Hi _ IH]; [constructor|].
  destruct (parsable i) eqn:Hp;
    [rewrite turnsOf_parsable by exact Hp|rewrite turnsOf_skipped by exact Hp];
    repeat (constructor; [cbn; rewrite ?Hi; reflexivity|]); exact IH.
Qed.

Lemma turnsOf_parses items : parseCalls (turnsOf items) = callsOf items.
Proof.
  induction items as [|i rest IH]; [reflexivity|].
  destruct (parsable i) eqn:Hp.
  - rewrite turnsOf_parsable, callsOf_parsable by exact Hp. cbn [parseCalls].
    rewrite IH. reflexivity.
  - rewrite turnsOf_skipped, callsOf_skipped by exact Hp. exact IH.
Qed.

(** The inner loop, exactly. *)
Lemma forDemuxedItems_exact items : forall st,
  terminated st = false ->
  LoopExact prettyDialect dispatchParser st items
    (forDemuxedItems prettyDialect dispatchParser items st).
Proof.
  induction items as [|i rest IH]; intros st Hlive.
  - left. cbn. repeat split; [exact Hlive|constructor].
  - rewrite (forDemuxedItems_cons prettyDialect dispatchParser i rest st Hlive).
    destruct (item_type i =? "event")%string eqn:Htype; cbn [negb].
    + destruct (item_data i =? "[DONE]")%string eqn:Hdata.
      * right. split; [reflexivity|].
        exists [], i, rest,
          [ActReceived (WireItem i); ActYield (EvTermination event_done)].
        repeat split; [constructor|].
        apply EndsDone. unfold isDoneEvent. rewrite Htype, Hdata. reflexivity.
      * assert (Hlater : isDoneEvent i = false).
        { unfold isDoneEvent. rewrite Hdata, andb_false_r. reflexivity. }
        assert (Hp : parsable i = true).
        { unfold parsable. rewrite Htype, Hdata. reflexivity. }
        destruct (parse_thrown (dispatchParser (partTransmitter st) (item_data i) (item_name i)))
          as [error|] eqn:Hparse.
        -- right. split; [reflexivity|].
           eexists [], i, rest, _.
           repeat split; [constructor|].
           apply EndsParse; assumption.
        -- destruct (IH (parsed dispatchParser (item_data i) (item_name i) st) Hlive)
             as [(Hstill & Htrace & Hnone & Hquiet)
                |(Hdone & seen & last & unseen & ending
                  & Hsplit & Htrace & Hnone & Hquiet & Hends)].
           ++ left. rewrite turnsOf_parsable, callsOf_parsable by exact Hp.
              cbn [before performed after app]. rewrite Htrace.
              repeat split; try assumption.
              constructor; assumption.
           ++ right. split; [exact Hdone|].
              exists (i :: seen), last, unseen, ending.
              rewrite turnsOf_parsable, callsOf_parsable by exact Hp.
              cbn [before performed app]. rewrite Htrace, Hsplit.
              repeat split; try assumption.
              constructor; assumption.
    + assert (Hlater : isDoneEvent i = false).
      { unfold isDoneEvent. rewrite Htype. reflexivity. }
      assert (Hp : parsable i = false).
      { unfold parsable. rewrite Htype. reflexivity. }
      destruct (IH st Hlive)
        as [(Hstill & Htrace & Hnone & Hquiet)
           |(Hdone & seen & last & unseen & ending
             & Hsplit & Htrace & Hnone & Hquiet & Hends)].
      * left. rewrite turnsOf_skipped, callsOf_skipped by exact Hp.
        cbn [before performed after app]. rewrite Htrace.
        repeat split; try assumption.
        constructor; assumption.
      * right. split; [exact Hdone|].
        exists (i :: seen), last, unseen, ending.
        rewrite turnsOf_skipped, callsOf_skipped by exact Hp.
        cbn [before performed app]. rewrite Htrace, Hsplit.
        repeat split; try assumption.
        constructor; assumption.
Qed.

(** Every turn of the pump begins with a read. *)
Lemma dataPump_starts_with_read reads dec dmx st :
  terminated st = false ->
  exists read later,
    performed (dataPump w prettyDialect dispatchParser dec dmx reads st)
      = ActRead read :: later.
Proof.
  intros Hlive. destruct reads as [|[value| |error] reads].
  - rewrite dataPump_closed by auto. eexists _, _. reflexivity.
  - rewrite dataPump_value. cbv zeta. eexists _, _. reflexivity.
  - rewrite dataPump_closed by eauto. eexists _, _. reflexivity.
  - rewrite dataPump_throws by assumption. eexists _, _. reflexivity.
Qed.

(** The pump, exactly. *)
Lemma dataPump_exact reads : forall dec dmx st,
  terminated st = false ->
  PumpExact prettyDialect dispatchParser st
    (dataPump w prettyDialect dispatchParser dec dmx reads st).
Proof.
  induction reads as [|[value| |error] later IH]; intros dec dmx st Hlive.
  - rewrite dataPump_closed by auto.
    exists [], [ActRead ReadDone; ActYield (EvTermination dispatch_close)].
    repeat split; [constructor|left; constructor].
  - pose proof (forDemuxedItems_exact (fst (demux w dmx (fst (decode w dec value)))) st Hlive)
      as Hloop.
    pose proof (forDemuxedItems_transmits prettyDialect dispatchParser
                  (fst (demux w dmx (fst (decode w dec value)))) st Hlive) as Hheld.
    destruct (dataPump_value_cases w prettyDialect dispatchParser dec dmx value later st)
      as [(Hdone & ->)|(Hstill & ->)];
      destruct Hloop
        as [(Hstill' & Htrace & Hnone & Hquiet)
           |(Hdone' & seen & last & unseen & ending
             & Hsplit & Htrace & Hnone & Hquiet & Hends)];
      try congruence.
    + exists (ActRead (ReadValue value)
              :: ActDemux (fst (decode w dec value))
                   (fst (demux w dmx (fst (decode w dec value)))) :: turnsOf seen), ending.
      cbn [performed app parseCalls]. rewrite Htrace, turnsOf_parses.
      repeat split; try assumption.
      * constructor; [reflexivity|]. constructor; [reflexivity|].
        apply turnsOf_calm. exact Hnone.
      * right. exists last. exact Hends.
    + destruct (IH (snd (decode w dec value))
                  (snd (demux w dmx (fst (decode w dec value)))) _ Hstill)
        as (q & ending & Htrace' & Hcalm & Hquiet' & Hend).
      rewrite Hheld, Htrace, turnsOf_parses in Hquiet', Hend.
      eexists (ActRead (ReadValue value)
               :: ActDemux (fst (decode w dec value))
                    (fst (demux w dmx (fst (decode w dec value))))
               :: turnsOf (fst (demux w dmx (fst (decode w dec value)))) ++ q),
        ending.
      cbn [before performed app parseCalls].
      rewrite Htrace', Htrace, parseCalls_app, turnsOf_parses.
      repeat split.
      * rewrite <- app_assoc. reflexivity.
      * constructor; [reflexivity|]. constructor; [reflexivity|].
        apply Forall_app. split; [|exact Hcalm].
        apply turnsOf_calm. exact Hnone.
      * apply quietCalls_app. split; assumption.
      * rewrite replay_app. exact Hend.
  - rewrite dataPump_closed by eauto.
    exists [], [ActRead ReadDone; ActYield (EvTermination dispatch_close)].
    repeat split; [constructor|left; constructor].
  - rewrite dataPump_throws by assumption.
    destruct (isResponseAborted error) eqn:Habort.
    + exists [], [ActRead (ReadThrows error); ActMarkTermination].
      repeat split; [constructor|left; constructor; assumption].
    + eexists [], _. repeat split; [constructor|left; apply EndReadError; assumption].
Qed.

(** Whatever batch the pump demuxed, it took a turn on each item and went on
    to the next read, or it cut the batch at the first item that ended the
    run. *)
Lemma dataPump_batch_cut reads : forall dec dmx st pre chunk items post,
  terminated st = false ->
  performed (dataPump w prettyDialect dispatchParser dec dmx reads st)
    = pre ++ ActDemux chunk items :: post ->
  BatchCut prettyDialect dispatchParser
    (replay dispatchParser (partTransmitter st) (parseCalls pre)) items post.
Proof.
  induction reads as [|[value| |error] later IH]; intros dec dmx st pre chunk items post Hlive Heq.
  - rewrite dataPump_closed in Heq by auto. cbn [performed] in Heq.
    assert (Hin : In (ActDemux chunk items)
                    [ActRead ReadDone; ActYield (EvTermination dispatch_close)])
      by (rewrite Heq; apply in_elt).
    cbn in Hin. intuition discriminate.
  - pose proof (forDemuxedItems_exact (fst (demux w dmx (fst (decode w dec value)))) st Hlive)
      as Hloop.
    pose proof (forDemuxedItems_transmits prettyDialect dispatchParser
                  (fst (demux w dmx (fst (decode w dec value)))) st Hlive) as Hheld.
    pose proof (LoopShape_no_demux prettyDialect _ _ chunk items
                  (forDemuxedItems_shape prettyDialect dispatchParser
                     (fst (demux w dmx (fst (decode w dec value)))) st Hlive)) as Hnone.
    destruct (dataPump_value_cases w prettyDialect dispatchParser dec dmx value later st)
      as [(Hdone & Hrun)|(Hstill & Hrun)];
      rewrite Hrun in Heq; clear Hrun; cbn [before performed app] in Heq;
      (destruct pre as [|a pre]; [discriminate|]); injection Heq as <- Heq;
      destruct pre as [|b pre].
    + (* the batch of this turn, which ended the run *)
      injection Heq as _ <- <-.
      destruct Hloop
        as [(Hstill' & _)
           |(_ & seen & last & unseen & ending
             & Hsplit & Htrace & Hnot & Hquiet & Hends)];
        [congruence|].
      right. exists seen, last, unseen, ending.
      repeat split; assumption.
    + injection Heq as _ Heq. exfalso. apply Hnone. rewrite Heq. apply in_elt.
    + (* the batch of this turn, every item of which had its turn *)
      injection Heq as _ <- <-.
      destruct Hloop as [(_ & Htrace & Hnot & Hquiet)|(Hdone' & _)]; [|congruence].
      destruct (dataPump_starts_with_read later (snd (decode w dec value))
                  (snd (demux w dmx (fst (decode w dec value)))) _ Hstill)
        as (read & rest & Hread).
      left. exists read, rest. rewrite Hread, Htrace.
      repeat split; assumption.
    + (* a batch of a later turn *)
      injection Heq as <- Heq.
      destruct (split_past _ _ _ _ _ Hnone (eq_sym Heq)) as (p & -> & Htail).
      cbn [parseCalls]. rewrite parseCalls_app, replay_app, <- Hheld.
      exact (IH _ _ _ _ _ _ _ Hstill Htail).
  - rewrite dataPump_closed in Heq by eauto. cbn [performed] in Heq.
    assert (Hin : In (ActDemux chunk items)
                    [ActRead ReadDone; ActYield (EvTermination dispatch_close)])
      by (rewrite Heq; apply in_elt).
    cbn in Hin. intuition discriminate.
  - rewrite dataPump_throws in Heq by assumption. cbn [performed] in Heq.
    assert (Hin : In (ActDemux chunk items)
                    (ActRead (ReadThrows error)
                     :: (if isResponseAborted error then [ActMarkTermination]
                         else [ActYield (EvError dispatch_read
                                           (streamReadMessage prettyDialect error) false)])))
      by (rewrite Heq; apply in_elt).
    destruct (isResponseAborted error); cbn in Hin; intuition discriminate.
Qed.

(** The items the pump surfaces are the items of the batches it demuxed, in
    order and without a gap; items stay unsurfaced only behind an item that
    ended the run. *)
Lemma dataPump_surfaces_until_cut reads : forall dec dmx st,
  terminated st = false ->
  exists unseen,
    concat (map snd
              (demuxesOf (performed (dataPump w prettyDialect dispatchParser dec dmx reads st))))
      = surfaced (performed (dataPump w prettyDialect dispatchParser dec dmx reads st))
          ++ unseen /\
    (unseen = []
     \/ exists q ending,
          performed (dataPump w prettyDialect dispatchParser dec dmx reads st) = q ++ ending /\
          ItemEnding prettyDialect ending).
Proof.
  induction reads as [|[value| |error] later IH]; intros dec dmx st Hlive.
  - rewrite dataPump_closed by auto. exists []. split; [reflexivity|left; reflexivity].
  - pose proof (forDemuxedItems_shape prettyDialect dispatchParser
                  (fst (demux w dmx (fst (decode w dec value)))) st Hlive) as Hloop.
    destruct (LoopShape_quiet prettyDialect _ _ Hloop) as (_ & _ & Hdemuxes).
    destruct Hloop as (seen & unseen & Hsplit & Hseen & Hcases).
    destruct (dataPump_value_cases w prettyDialect dispatchParser dec dmx value later st)
      as [(Hdone & ->)|(Hstill & ->)];
      cbn [before performed app demuxesOf surfaced map snd concat];
      rewrite ?demuxesOf_app, ?surfaced_app, Hdemuxes, Hseen; cbn [app map concat].
    + exists unseen. split; [rewrite app_nil_r; exact Hsplit|].
      destruct Hcases as [(Hstill' & _)|(_ & _ & q & ending & Htrace & _ & Hend)];
        [congruence|].
      right. eexists (_ :: _ :: q), ending. rewrite Htrace. split; [reflexivity|exact Hend].
    + destruct Hcases as [(_ & -> & _)|(Hterm & _)]; [|congruence].
      destruct (IH (snd (decode w dec value))
                  (snd (demux w dmx (fst (decode w dec value)))) _ Hstill)
        as (rest & Hrest & Hcut).
      exists rest. split.
      * rewrite Hrest. rewrite app_nil_r in Hsplit.
        rewrite Hsplit at 1. rewrite app_assoc. reflexivity.
      * destruct Hcut as [->|(q & ending & Htrace & Hend)]; [left; reflexivity|].
        right. eexists (_ :: _ :: _ ++ q), ending. rewrite Htrace.
        split; [|exact Hend]. cbn [app]. rewrite <- app_assoc. reflexivity.
  - rewrite dataPump_closed by eauto. exists []. split; [reflexivity|left; reflexivity].
  - rewrite dataPump_throws by assumption. exists [].
    split; [destruct (isResponseAborted error); reflexivity|left; reflexivity].
Qed.

End ExactPumpFacts.

Section ExactRunFacts.

Context {X : Externals}.
Variable w : World.
Variable input : Input.
Variable ctx : Ctx.

Lemma head_parses_nothing dispatch :
  parseCalls (ActYield EvStart :: map ActYield (debugEvents w input dispatch)
                ++ [ActFetch (fetchArgs w input ctx dispatch)]) = [].
Proof. cbn [parseCalls]. rewrite parseCalls_app, parseCalls_map. reflexivity. Qed.

(** The streaming run, exactly: the start, the diagnostic and the fetch, then
    calm actions whose parse calls all return, then one ending. *)
Lemma stream_exact dispatch dispatchResponse :
  builtDispatch w input = Returns dispatch ->
  fetchResponseOrTRPCThrow w (fetchArgs w input ctx dispatch) = Returns dispatchResponse ->
  streaming input = true ->
  exists q ending,
    trace w input ctx
      = ((ActYield EvStart :: map ActYield (debugEvents w input dispatch)
            ++ [ActFetch (fetchArgs w input ctx dispatch)]) ++ q) ++ ending /\
    Forall (fun a => calm a = true) q /\
    quietCalls (chatGenerateParse dispatch) (newPartTransmitter (prettyDialectOf w input))
      (parseCalls q) /\
    (ReadEnding (prettyDialectOf w input) ending
     \/ exists last,
          ItemEnds (prettyDialectOf w input) (chatGenerateParse dispatch)
            (replay (chatGenerateParse dispatch)
               (newPartTransmitter (prettyDialectOf w input)) (parseCalls q))
            last ending).
Proof.
  intros Hbuilt Hfetched Hstreaming.
  destruct (dataPump_exact w (prettyDialectOf w input) (chatGenerateParse dispatch)
              (readerOf dispatchResponse) (newTextDecoder w)
              (createStreamDemuxer w (demuxerFormat dispatch)) (started w input) eq_refl)
    as (q & ending & Htrace & Hcalm & Hquiet & Hend).
  exists q, ending. split; [|split; [exact Hcalm|split; [exact Hquiet|exact Hend]]].
  unfold trace. rewrite (streaming_stage w input ctx _ _ Hbuilt Hfetched Hstreaming).
  cbn [before performed]. unfold pumpOf. rewrite Htrace, app_assoc. reflexivity.
Qed.

End ExactRunFacts.

(** * The claims *)

Section Claims.

Context {X : Externals}.

Lemma diagnostics_cases (w : World) (input : Input) (dispatch : Dispatch) :
  debugEvents w input dispatch = []
  \/ exists body, debugEvents w input dispatch = [EvDebugClientPrint body].
Proof.
  destruct (debugEvents_cases w input dispatch) as [(-> & _)|(-> & _)]; eauto.
Qed.

(** The output of a run whose trace is the start, the diagnostic, the fetch
    and then [rest]. *)
Lemma yields_after_fetch (w : World) (input : Input) (ctx : Ctx) (dispatch : Dispatch)
    (rest : list Action) :
  yields (ActYield EvStart :: map ActYield (debugEvents w input dispatch)
            ++ ActFetch (fetchArgs w input ctx dispatch) :: rest)
    = EvStart :: debugEvents w input dispatch ++ yields rest.
Proof. cbn [yields]. rewrite yields_app, yields_map. reflexivity. Qed.

(** The router has no [yield] for the operations of the transmitter. *)
Lemma operations_never_yielded (w : World) (input : Input) (ctx : Ctx) (op : Operation) :
  ~ In (EvOperation op) (output w input ctx).
Proof.
  change (output w input ctx) with (yields (trace w input ctx)).
  destruct (trace_path w input ctx)
    as [error Hbuilt
       | dispatch error Hbuilt Hfetched
       | dispatch dispatchResponse error Hbuilt Hfetched Hstreaming Htext
       | dispatch dispatchResponse dispatchBody Hbuilt Hfetched Hstreaming Htext Hparse
       | dispatch dispatchResponse dispatchBody error Hbuilt Hfetched Hstreaming Htext Hparse
       | dispatch dispatchResponse q ending Hbuilt Hfetched Hstreaming Htrace Hcalm Hend].
  1: cbn; intuition discriminate.
  1-5: rewrite yields_after_fetch; intros [Hin|Hin]; [discriminate|];
       apply in_app_or in Hin; destruct Hin as [Hin|Hin];
       [destruct (diagnostics_cases w input dispatch) as [Hd|(body & Hd)];
        rewrite Hd in Hin; cbn in Hin; intuition discriminate|].
  1-4: cbn in Hin; intuition discriminate.
  rewrite yields_app, (calm_yields q Hcalm) in Hin.
  destruct Hend as [Hend|Hend]; destruct Hend; cbn in Hin; intuition discriminate.
Qed.

(** Neither an abort nor a [markTermination] stands in the part of a trace up
    to the fetch. *)
Lemma after_fetch_no_abort (events : list OutputEvent) (args : FetchArgs)
    (rest : list Action) :
  ~ In ActMarkTermination rest ->
  (forall error, In (ActRead (ReadThrows error)) rest -> isResponseAborted error = false) ->
  Unaborted (ActYield EvStart :: map ActYield events ++ ActFetch args :: rest).
Proof.
  intros Hmark Hreads. split.
  - intros Hin. apply In_head in Hin. destruct Hin as [(e & He)|[He|Hin]];
      [discriminate|discriminate|exact (Hmark Hin)].
  - intros error Hin. apply In_head in Hin. destruct Hin as [(e & He)|[He|Hin]];
      [discriminate|discriminate|exact (Hreads error Hin)].
Qed.

(** C1 (amended).  For every invocation the output sequence begins with the
    one [start] event, then holds the diagnostic event if any, then at most one
    terminal event, which is then its last element.  A run is of one of
    three kinds.  Either no chunk read failed with the client's abort and
    [markTermination] was not called: the terminal event is then there.  Or
    the run streams and a chunk read fails with [ResponseAborted]: the run
    ends there through [markTermination] and has no terminal event, its output
    is [start] and the diagnostic event if any.  Or the run is the
    non-streaming run whose body parses without a throw, of which the theorem
    does not say whether it has a terminal event. *)
Theorem C1_output_framing (w : World) (input : Input) (ctx : Ctx) :
  exists diagnostics final,
    output w input ctx = EvStart :: diagnostics ++ final /\
    (diagnostics = [] \/ exists body, diagnostics = [EvDebugClientPrint body]) /\
    (final = [] \/ exists e, final = [e] /\ isTerminal e = true) /\
    (((exists e, final = [e] /\ isTerminal e = true) /\
      Unaborted (trace w input ctx))
     \/
     (final = [] /\
      streaming input = true /\
      exists pre error,
        isResponseAborted error = true /\
        trace w input ctx = pre ++ [ActRead (ReadThrows error); ActMarkTermination])
     \/
     (WholeBodyParsed w input ctx /\ Unaborted (trace w input ctx))).
Proof.
  change (output w input ctx) with (yields (trace w input ctx)).
  destruct (trace_path w input ctx)
    as [error Hbuilt
       | dispatch error Hbuilt Hfetched
       | dispatch dispatchResponse error Hbuilt Hfetched Hstreaming Htext
       | dispatch dispatchResponse dispatchBody Hbuilt Hfetched Hstreaming Htext Hparse
       | dispatch dispatchResponse dispatchBody error Hbuilt Hfetched Hstreaming Htext Hparse
       | dispatch dispatchResponse q ending Hbuilt Hfetched Hstreaming Htrace Hcalm Hend].
  - eexists [], [_]. cbn [yields app].
    split; [reflexivity|]. split; [left; reflexivity|]. split; [right; eauto|].
    left. split; [eauto|]. split.
    + cbn. intuition discriminate.
    + intros error' Hin. cbn in Hin. intuition discriminate.
  - rewrite yields_after_fetch. eexists _, [_]. cbn [yields].
    split; [reflexivity|]. split; [apply diagnostics_cases|]. split; [right; eauto|].
    left. split; [eauto|]. apply after_fetch_no_abort.
    + cbn. intuition discriminate.
    + intros error' Hin. cbn in Hin. intuition discriminate.
  - rewrite yields_after_fetch. eexists _, [_]. cbn [yields].
    split; [reflexivity|]. split; [apply diagnostics_cases|]. split; [right; eauto|].
    left. split; [eauto|]. apply after_fetch_no_abort.
    + cbn. intuition discriminate.
    + intros error' Hin. cbn in Hin. intuition discriminate.
  - rewrite yields_after_fetch. eexists _, []. cbn [yields].
    split; [reflexivity|]. split; [apply diagnostics_cases|]. split; [left; reflexivity|].
    right. right. split; [split; [exact Hstreaming|]; eauto 10|].
    apply after_fetch_no_abort.
    + cbn. intuition discriminate.
    + intros error' Hin. cbn in Hin. intuition discriminate.
  - rewrite yields_after_fetch. eexists _, [_]. cbn [yields].
    split; [reflexivity|]. split; [apply diagnostics_cases|]. split; [right; eauto|].
    left. split; [eauto|]. apply after_fetch_no_abort.
    + cbn. intuition discriminate.
    + intros error' Hin. cbn in Hin. intuition discriminate.
  - rewrite yields_after_fetch, yields_app, (calm_yields q Hcalm). cbn [app].
    assert (Hq : forall a l, calm a = false -> In a (q ++ l) -> In a l).
    { intros a l Ha Hin. apply in_app_or in Hin. destruct Hin as [Hin|Hin]; [|exact Hin].
      destruct (calm_not_in a q Hcalm Ha Hin). }
    destruct Hend as [[|error Habort|error Hother]|[i Hi|i error Htype Hdata]]; cbn [yields].
    + eexists _, [_].
      split; [reflexivity|]. split; [apply diagnostics_cases|]. split; [right; eauto|].
      left. split; [eauto|]. apply after_fetch_no_abort.
      * intros Hin. apply Hq in Hin; [|reflexivity]. cbn in Hin. intuition discriminate.
      * intros error' Hin. apply Hq in Hin; [|reflexivity]. cbn in Hin. intuition discriminate.
    + eexists _, [].
      split; [reflexivity|]. split; [apply diagnostics_cases|]. split; [left; reflexivity|].
      right. left. split; [reflexivity|]. split; [exact Hstreaming|].
      exists (ActYield EvStart :: map ActYield (debugEvents w input dispatch)
                ++ ActFetch (fetchArgs w input ctx dispatch) :: q), error.
      split; [exact Habort|]. cbn [app]. rewrite <- app_assoc. reflexivity.
    + eexists _, [_].
      split; [reflexivity|]. split; [apply diagnostics_cases|]. split; [right; eauto|].
      left. split; [eauto|]. apply after_fetch_no_abort.
      * intros Hin. apply Hq in Hin; [|reflexivity]. cbn in Hin. intuition discriminate.
      * intros error' Hin. apply Hq in Hin; [|reflexivity].
        destruct Hin as [Hin|[Hin|[]]]; [|discriminate]. injection Hin as <-. exact Hother.
    + eexists _, [_].
      split; [reflexivity|]. split; [apply diagnostics_cases|]. split; [right; eauto|].
      left. split; [eauto|]. apply after_fetch_no_abort.
      * intros Hin. apply Hq in Hin; [|reflexivity]. cbn in Hin. intuition discriminate.
      * intros error' Hin. apply Hq in Hin; [|reflexivity]. cbn in Hin. intuition discriminate.
    + eexists _, [_].
      split; [reflexivity|]. split; [apply diagnostics_cases|]. split; [right; eauto|].
      left. split; [eauto|]. apply after_fetch_no_abort.
      * intros Hin. apply Hq in Hin; [|reflexivity]. cbn in Hin. intuition discriminate.
      * intros error' Hin. apply Hq in Hin; [|reflexivity]. cbn in Hin. intuition discriminate.
Qed.

(** C2 (amended).  In streaming mode, whenever the pump reaches a demuxed
    [event] message that carries [[DONE]] (the message is surfaced to the
    intake handler: no earlier message has ended the run), the run emits
    [termination(event-done)] and ends there: nothing after that message, in
    its batch or in later chunks, is surfaced, parsed or handed to the
    transmitter. *)
Theorem C2_sentinel_ends_run (w : World) (input : Input) (ctx : Ctx) (item : DemuxedItem) :
  isDoneEvent item = true ->
  In (ActReceived (WireItem item)) (trace w input ctx) ->
  streaming input = true /\
  terminated (after (chatGenerateContent w input ctx)) = true /\
  exists pre,
    trace w input ctx
      = pre ++ [ActReceived (WireItem item); ActYield (EvTermination event_done)] /\
    Forall (fun e => isTerminal e = false) (yields pre).
Proof.
  intros Hdone Hin.
  destruct (pump_action_streams w input ctx (ActReceived (WireItem item)) eq_refl Hin)
    as (Hstreaming & Hterminated & dispatch & dispatchResponse & head & q & ending
        & Hbuilt & Hfetched & Hhead & Htrace & _ & Hcalm & Hend & Hin').
  split; [exact Hstreaming|]. split; [exact Hterminated|].
  apply in_app_or in Hin'. destruct Hin' as [Hq|He].
  - exfalso. refine (calm_not_in _ q Hcalm _ Hq). cbn. rewrite Hdone. reflexivity.
  - destruct Hend as [Hend|Hend];
      [destruct Hend as [|error Habort|error Hother]|destruct Hend as [i Hi|i error Htype Hdata]];
      cbn in He; try solve [intuition discriminate].
    + destruct He as [He|[He|[]]]; [|discriminate]. injection He as ->.
      exists (head ++ q). split; [exact Htrace|].
      rewrite Hhead, head_yields by exact Hcalm. apply debugEvents_not_terminal.
    + destruct He as [He|[He|[He|[]]]]; try discriminate. injection He as ->.
      unfold isDoneEvent in Hdone. rewrite Hdata, andb_false_r in Hdone. discriminate.
Qed.

(** C3 (amended).  Of every batch the demultiplexer returns for a chunk, the
    pump surfaces the messages to the intake handler in order, whatever their
    variant, up to and including the first one that ends the run: the first
    [event] that carries [[DONE]] or on which the parse function throws.  The
    messages before that one are surfaced, and parsed if they are events,
    without ending the run; the messages behind it are not surfaced, and the
    run ends with the terminal event of that message.  A batch no message of
    which ends the run is surfaced whole, and the pump goes on to its next
    read. *)
Theorem C3_batch_surfaced (w : World) (input : Input) (ctx : Ctx)
    (pre : list Action) (chunk : string) (items : list DemuxedItem) (post : list Action) :
  trace w input ctx = pre ++ ActDemux chunk items :: post ->
  exists dispatch,
    builtDispatch w input = Returns dispatch /\
    BatchCut (prettyDialectOf w input) (chatGenerateParse dispatch)
      (replay (chatGenerateParse dispatch) (newPartTransmitter (prettyDialectOf w input))
         (parseCalls pre))
      items post.
Proof.
  intros Hsplit.
  assert (Hin : In (ActDemux chunk items) (trace w input ctx))
    by (rewrite Hsplit; apply in_elt).
  destruct (pump_action_streams w input ctx (ActDemux chunk items) eq_refl Hin)
    as (_ & _ & dispatch & dispatchResponse & head & q & ending
        & Hbuilt & _ & Hhead & Htrace & Hpump & _ & _ & _).
  rewrite Hsplit, <- app_assoc, <- Hpump in Htrace.
  assert (Hnot : ~ In (ActDemux chunk items) head).
  { rewrite Hhead. intros Hbad. apply In_head in Hbad.
    destruct Hbad as [(e & He)|[He|[]]]; discriminate. }
  destruct (split_past (ActDemux chunk items) head _ pre post Hnot Htrace)
    as (p & Hpre & Htail).
  exists dispatch. split; [exact Hbuilt|].
  rewrite Hpre, parseCalls_app, Hhead, head_parses_nothing. cbn [app].
  unfold pumpOf in Htail.
  exact (dataPump_batch_cut w _ _ _ _ _ (started w input) _ _ _ _ eq_refl Htail).
Qed.

Lemma showOnConsole_test (access : Access) :
  showOnConsoleForNonCustomServers access = false
  <-> dialect access = "openai"%string /\ truthy (oaiHost access) = true.
Proof.
  unfold showOnConsoleForNonCustomServers.
  rewrite orb_false_iff, !negb_false_iff, String.eqb_eq. reflexivity.
Qed.

(** C5 (amended).  When the fetch fails, the run ends with
    [error(dispatch-fetch)] whose shared-log flag is the test of line 81: it is
    false exactly when the access has the dialect [openai] and a non-empty
    [oaiHost], and true for every other access, the endpoint of another
    dialect with a host set by the user included; the flag of the error of any
    other stage does not look at the access (false for prepare and read, true
    for parse). *)
Theorem C5_fetch_error_visibility (w : World) (input : Input) (ctx : Ctx) :
  (forall dispatch error,
     builtDispatch w input = Returns dispatch ->
     fetchResponseOrTRPCThrow w (fetchArgs w input ctx dispatch) = Throws error ->
     output w input ctx
       = EvStart :: debugEvents w input dispatch
           ++ [EvError dispatch_fetch (fetchMessage w input dispatch error)
                 (showOnConsoleForNonCustomServers (access input))]) /\
  (showOnConsoleForNonCustomServers (access input) = false
   <-> dialect (access input) = "openai"%string /\ truthy (oaiHost (access input)) = true) /\
  (forall stage message visible,
     In (EvError stage message visible) (output w input ctx) ->
     visible = stageVisibility input stage).
Proof.
  split; [|split].
  - intros dispatch error Hbuilt Hfetched. unfold output.
    rewrite chatGenerateContent_stages, Hbuilt, connect_cases, Hfetched.
    cbn [before performed]. cbn [app yields]. rewrite yields_app, yields_map.
    reflexivity.
  - apply showOnConsole_test.
  - intros stage message visible.
    change (output w input ctx) with (yields (trace w input ctx)).
    destruct (trace_path w input ctx)
      as [error Hbuilt
         | dispatch error Hbuilt Hfetched
         | dispatch dispatchResponse error Hbuilt Hfetched Hstreaming Htext
         | dispatch dispatchResponse dispatchBody Hbuilt Hfetched Hstreaming Htext Hparse
         | dispatch dispatchResponse dispatchBody error Hbuilt Hfetched Hstreaming Htext Hparse
         | dispatch dispatchResponse q ending Hbuilt Hfetched Hstreaming Htrace Hcalm Hend].
    1: cbn; intros [Hin|[Hin|[]]]; [discriminate|]; injection Hin as <- _ <-; reflexivity.
    1-5: rewrite yields_after_fetch; intros [Hin|Hin]; [discriminate|];
         apply in_app_or in Hin; destruct Hin as [Hin|Hin];
         [destruct (diagnostics_cases w input dispatch) as [Hd|(body & Hd)];
          rewrite Hd in Hin; cbn in Hin; intuition discriminate|].
    + cbn in Hin. destruct Hin as [Hin|[]]. injection Hin as <- _ <-. reflexivity.
    + cbn in Hin. destruct Hin as [Hin|[]]. injection Hin as <- _ <-. reflexivity.
    + cbn in Hin. destruct Hin.
    + cbn in Hin. destruct Hin as [Hin|[]]. injection Hin as <- _ <-. reflexivity.
    + rewrite yields_app, (calm_yields q Hcalm) in Hin.
      destruct Hend as [Hend|Hend];
        [destruct Hend as [|error Habort|error Hother]
        |destruct Hend as [i Hi|i error Htype Hdata]];
        cbn in Hin; try (destruct Hin as [Hin|[]]); try discriminate;
        try (injection Hin as <- _ <-; reflexivity).
      destruct Hin.
Qed.

(** C6 (amended).  A streaming chunk read that fails with an error named
    [ResponseAborted] ends the run through [markTermination]: the terminated
    flag is set, nothing is yielded, and the output sequence holds no terminal
    event, hence no [error].  Any other failure of a chunk read, a
    cancellation that reaches the read under another name included, ends the
    run with [error(dispatch-read)]. *)
Theorem C6_read_failures (w : World) (input : Input) (ctx : Ctx) (error : JsError) :
  In (ActRead (ReadThrows error)) (trace w input ctx) ->
  streaming input = true /\
  terminated (after (chatGenerateContent w input ctx)) = true /\
  if isResponseAborted error
  then (exists pre,
          trace w input ctx = pre ++ [ActRead (ReadThrows error); ActMarkTermination]) /\
       Forall (fun e => isTerminal e = false) (output w input ctx)
  else exists pre,
         trace w input ctx
           = pre ++ [ActRead (ReadThrows error);
                     ActYield (EvError dispatch_read
                                 (streamReadMessage (prettyDialectOf w input) error) false)] /\
         Forall (fun e => isTerminal e = false) (yields pre).
Proof.
  intros Hin.
  destruct (pump_action_streams w input ctx (ActRead (ReadThrows error)) eq_refl Hin)
    as (Hstreaming & Hterminated & dispatch & dispatchResponse & head & q & ending
        & Hbuilt & Hfetched & Hhead & Htrace & _ & Hcalm & Hend & Hin').
  split; [exact Hstreaming|]. split; [exact Hterminated|].
  apply in_app_or in Hin'. destruct Hin' as [Hq|He].
  - exfalso. refine (calm_not_in _ q Hcalm _ Hq). reflexivity.
  - destruct Hend as [Hend|Hend];
      [destruct Hend as [|error' Habort|error' Hother]
      |destruct Hend as [i Hi|i error' Htype Hdata]];
      cbn in He; try solve [intuition discriminate].
    + destruct He as [He|[He|[]]]; [|discriminate]. injection He as ->.
      rewrite Habort. split.
      * exists (head ++ q). exact Htrace.
      * unfold output. fold (trace w input ctx). rewrite Htrace, yields_app.
        cbn [yields]. rewrite app_nil_r, Hhead, head_yields by exact Hcalm.
        apply debugEvents_not_terminal.
    + destruct He as [He|[He|[]]]; [|discriminate]. injection He as ->.
      rewrite Hother. exists (head ++ q). split; [exact Htrace|].
      rewrite Hhead, head_yields by exact Hcalm. apply debugEvents_not_terminal.
Qed.


(** The layout of every trace: the start, then either the prepare error, or
    the diagnostic if any, the one fetch, and a rest that yields terminal
    events only. *)
Lemma trace_layout (w : World) (input : Input) (ctx : Ctx) :
  (exists error,
     builtDispatch w input = Throws error /\
     trace w input ctx
       = [ActYield EvStart;
          ActYield (EvError dispatch_prepare (prepareMessage w input error) false)])
  \/
  (exists dispatch rest,
     builtDispatch w input = Returns dispatch /\
     trace w input ctx
       = ActYield EvStart :: map ActYield (debugEvents w input dispatch)
           ++ ActFetch (fetchArgs w input ctx dispatch) :: rest /\
     Forall (fun e => isTerminal e = true) (yields rest) /\
     forall args, ~ In (ActFetch args) rest).
Proof.
  destruct (trace_path w input ctx)
    as [error Hbuilt
       | dispatch error Hbuilt Hfetched
       | dispatch dispatchResponse error Hbuilt Hfetched Hstreaming Htext
       | dispatch dispatchResponse dispatchBody Hbuilt Hfetched Hstreaming Htext Hparse
       | dispatch dispatchResponse dispatchBody error Hbuilt Hfetched Hstreaming Htext Hparse
       | dispatch dispatchResponse q ending Hbuilt Hfetched Hstreaming Htrace Hcalm Hend].
  1: left; eauto.
  1-4: right; eexists dispatch, _; split; [exact Hbuilt|]; split; [reflexivity|];
       split; [cbn; repeat constructor|intros args Hin; cbn in Hin; intuition discriminate].
  right. exists dispatch, (q ++ ending). split; [exact Hbuilt|]. split; [reflexivity|].
  split.
  - rewrite yields_app, (calm_yields q Hcalm).
    destruct Hend as [Hend|Hend]; destruct Hend; cbn; repeat constructor.
  - intros args Hin. apply in_app_or in Hin. destruct Hin as [Hin|Hin].
    + refine (calm_not_in _ q Hcalm _ Hin). reflexivity.
    + destruct Hend as [Hend|Hend]; destruct Hend; cbn in Hin; intuition discriminate.
Qed.

Lemma isDevelopment_env (w : World) :
  isDevelopment w = true <-> NODE_ENV w = "development"%string.
Proof. unfold isDevelopment. apply String.eqb_eq. Qed.

(** C8.  The diagnostic event that carries the serialized request body is in
    the output only when [connectionOptions.debugDispatchRequestbody] is set
    and [NODE_ENV] is [development]; it is then yielded right after [start],
    before the fetch.  Outside development the connection options change
    nothing: the runs are the same, output sequence included. *)
Theorem C8_debug_print (w : World) (input : Input) (ctx : Ctx) :
  (forall body,
     In (EvDebugClientPrint body) (output w input ctx) ->
     debugFlag input = true /\
     NODE_ENV w = "development"%string /\
     exists args post,
       trace w input ctx
         = ActYield EvStart :: ActYield (EvDebugClientPrint body) :: ActFetch args :: post) /\
  (NODE_ENV w <> "development"%string ->
   forall options,
     chatGenerateContent w (withConnectionOptions input options) ctx
       = chatGenerateContent w input ctx).
Proof.
  split.
  - intros body. change (output w input ctx) with (yields (trace w input ctx)).
    destruct (trace_layout w input ctx)
      as [(error & _ & ->)|(dispatch & rest & _ & -> & Hrest & _)].
    + cbn. intuition discriminate.
    + rewrite yields_after_fetch. intros [Hin|Hin]; [discriminate|].
      apply in_app_or in Hin. destruct Hin as [Hin|Hin].
      * destruct (debugEvents_cases w input dispatch) as [(Hd & _)|(Hd & Hflag & Hdev)];
          rewrite Hd in Hin |- *; cbn in Hin; [destruct Hin|destruct Hin as [Hin|[]]].
        injection Hin as <-.
        split; [exact Hflag|]. split; [apply isDevelopment_env; exact Hdev|].
        eexists _, rest. reflexivity.
      * rewrite Forall_forall in Hrest. specialize (Hrest _ Hin). discriminate.
  - intros Henv options.
    assert (Hdev : isDevelopment w = false).
    { destruct (isDevelopment w) eqn:Hdev; [|reflexivity].
      exfalso. apply Henv. apply isDevelopment_env. exact Hdev. }
    rewrite !chatGenerateContent_stages.
    change (builtDispatch w (withConnectionOptions input options)) with (builtDispatch w input).
    destruct (builtDispatch w input) as [dispatch|error]; [|reflexivity].
    unfold debugEvents. rewrite Hdev, !andb_false_r. reflexivity.
Qed.

(** C9.  The one fetch of an invocation is issued with the method [POST] and
    with the url, headers and body of the request the dispatch builder
    returned; the [method] of that request is never read: a builder that
    answers with any other method gives the same run. *)
Theorem C9_fetch_is_post (w : World) (input : Input) (ctx : Ctx) :
  (forall args,
     In (ActFetch args) (trace w input ctx) ->
     fetch_method args = "POST"%string /\
     exists dispatch,
       builtDispatch w input = Returns dispatch /\
       fetch_url args = request_url (request dispatch) /\
       fetch_headers args = request_headers (request dispatch) /\
       fetch_body args = request_body (request dispatch)) /\
  (forall method,
     chatGenerateContent (withRequestMethod w method) input ctx
       = chatGenerateContent w input ctx).
Proof.
  split.
  - intros args.
    destruct (trace_layout w input ctx)
      as [(error & _ & ->)|(dispatch & rest & Hbuilt & -> & _ & Hrest)].
    + cbn. intuition discriminate.
    + intros [Hin|Hin]; [discriminate|].
      apply in_app_or in Hin. destruct Hin as [Hin|[Hin|Hin]].
      * apply In_map_yield in Hin. destruct Hin as (e & He & _). discriminate.
      * injection Hin as <-. split; [reflexivity|].
        exists dispatch. repeat split. exact Hbuilt.
      * destruct (Hrest args Hin).
  - intros method.
    unfold chatGenerateContent, mutation, withRequestMethod. cbn.
    destruct (createChatGenerateDispatch w (access input) (model input) (chatGenerate input)
                (streaming input)) as [dispatch|error]; reflexivity.
Qed.

(** C10 (amended).  In streaming mode, if the fetch succeeds and the response
    has no body stream, the pump reads the empty stream in its place: the first
    read reports done and the output sequence is [start], the diagnostic event
    if the debug flag is set in development, and [termination(dispatch-close)],
    with no error event. *)
Theorem C10_missing_body_closes (w : World) (input : Input) (ctx : Ctx)
    (dispatch : Dispatch) (dispatchResponse : Response) :
  streaming input = true ->
  builtDispatch w input = Returns dispatch ->
  fetchResponseOrTRPCThrow w (fetchArgs w input ctx dispatch) = Returns dispatchResponse ->
  response_body dispatchResponse = None ->
  trace w input ctx
    = ActYield EvStart :: map ActYield (debugEvents w input dispatch)
        ++ [ActFetch (fetchArgs w input ctx dispatch); ActRead ReadDone;
            ActYield (EvTermination dispatch_close)] /\
  output w input ctx
    = EvStart :: debugEvents w input dispatch ++ [EvTermination dispatch_close] /\
  Forall (fun e => isError e = false) (output w input ctx).
Proof.
  intros Hstreaming Hbuilt Hfetched Hbody.
  assert (Htrace : trace w input ctx
                   = ActYield EvStart :: map ActYield (debugEvents w input dispatch)
                       ++ [ActFetch (fetchArgs w input ctx dispatch); ActRead ReadDone;
                           ActYield (EvTermination dispatch_close)]).
  { unfold trace.
    rewrite (streaming_stage w input ctx dispatch dispatchResponse Hbuilt Hfetched Hstreaming).
    unfold pumpOf, readerOf. rewrite Hbody. unfold createEmptyReadableStream.
    rewrite dataPump_closed by (auto; reflexivity).
    cbn [before performed app]. rewrite <- app_assoc. reflexivity. }
  assert (Houtput : output w input ctx
                    = EvStart :: debugEvents w input dispatch
                        ++ [EvTermination dispatch_close]).
  { change (output w input ctx) with (yields (trace w input ctx)).
    rewrite Htrace, yields_after_fetch. reflexivity. }
  split; [exact Htrace|]. split; [exact Houtput|].
  rewrite Houtput. constructor; [reflexivity|].
  apply Forall_app. split; [|repeat constructor].
  destruct (diagnostics_cases w input dispatch) as [->|(body & ->)]; repeat constructor.
Qed.

End Claims.

(** * Further properties of the router *)

Section MoreRunFacts.

Context {X : Externals}.
Variable w : World.
Variable input : Input.
Variable ctx : Ctx.

(** The part of a streaming trace before the pump neither reads, demuxes nor
    parses. *)
Lemma head_quiet dispatch :
  readsOf (ActYield EvStart :: map ActYield (debugEvents w input dispatch)
             ++ [ActFetch (fetchArgs w input ctx dispatch)]) = [] /\
  valuesOf (ActYield EvStart :: map ActYield (debugEvents w input dispatch)
              ++ [ActFetch (fetchArgs w input ctx dispatch)]) = [] /\
  demuxesOf (ActYield EvStart :: map ActYield (debugEvents w input dispatch)
               ++ [ActFetch (fetchArgs w input ctx dispatch)]) = [] /\
  parseCalls (ActYield EvStart :: map ActYield (debugEvents w input dispatch)
                ++ [ActFetch (fetchArgs w input ctx dispatch)]) = [].
Proof.
  cbn [readsOf valuesOf demuxesOf parseCalls].
  rewrite readsOf_app, valuesOf_app, demuxesOf_app, parseCalls_app,
    readsOf_map, valuesOf_map, demuxesOf_map, parseCalls_map.
  repeat split.
Qed.

(** The flag the run leaves on the intake handler. *)
Lemma final_flag :
  terminated (after (chatGenerateContent w input ctx)) = endsTerminated w input ctx.
Proof.
  unfold endsTerminated.
  rewrite chatGenerateContent_stages.
  destruct (builtDispatch w input) as [dispatch|error]; [|reflexivity].
  rewrite connect_cases.
  destruct (fetchResponseOrTRPCThrow w (fetchArgs w input ctx dispatch))
    as [dispatchResponse|error]; [|reflexivity].
  destruct (streaming input).
  - exact (proj1 (pumpOf_shape w input dispatch dispatchResponse)).
  - rewrite readWholeResponse_cases.
    destruct (response_text dispatchResponse) as [dispatchBody|error]; [|reflexivity].
    destruct (parse_thrown (wholeParse w input dispatch dispatchBody)); reflexivity.
Qed.

Lemma fetches_layout (events : list OutputEvent) (args : FetchArgs) (rest : list Action) :
  (forall args', ~ In (ActFetch args') rest) ->
  fetches (ActYield EvStart :: map ActYield events ++ ActFetch args :: rest) = [args].
Proof.
  intros Hrest. cbn [fetches]. rewrite fetches_app, fetches_map. cbn [fetches app].
  rewrite (fetches_none rest Hrest). reflexivity.
Qed.

(** X1.  An invocation issues no fetch when the dispatch build throws, and one
    fetch otherwise: the one of lines 65-73, with the built request's url,
    headers and body, the method [POST], the caller's abort signal and the
    name [Aix.] followed by the capitalized dialect. *)
Theorem fetch_issued_once :
  fetches (trace w input ctx)
    = match builtDispatch w input with
      | Returns dispatch => [fetchArgs w input ctx dispatch]
      | Throws _ => []
      end.
Proof.
  destruct (trace_layout w input ctx)
    as [(error & -> & ->)|(dispatch & rest & -> & -> & _ & Hrest)].
  - reflexivity.
  - apply fetches_layout. exact Hrest.
Qed.

(** X2.  The branch of lines 147-151 (an item received after termination, with
    its console warning) is never taken: inside a batch the handler is
    terminated only by the sentinel or a parse failure, and both leave the
    loop at once. *)
Theorem warning_branch_never_taken :
  Forall (fun a => isConsoleWarn a = false) (trace w input ctx).
Proof.
  destruct (trace_path w input ctx)
    as [error Hbuilt
       | dispatch error Hbuilt Hfetched
       | dispatch dispatchResponse error Hbuilt Hfetched Hstreaming Htext
       | dispatch dispatchResponse dispatchBody Hbuilt Hfetched Hstreaming Htext Hparse
       | dispatch dispatchResponse dispatchBody error Hbuilt Hfetched Hstreaming Htext Hparse
       | dispatch dispatchResponse q ending Hbuilt Hfetched Hstreaming Htrace Hcalm Hend].
  1: repeat constructor.
  1-4: constructor; [reflexivity|]; apply Forall_app; split;
       [apply map_yield_no_warning|repeat constructor].
  constructor; [reflexivity|]. apply Forall_app. split; [apply map_yield_no_warning|].
  constructor; [reflexivity|]. apply Forall_app. split; [apply calm_no_warning; exact Hcalm|].
  destruct Hend as [Hend|Hend]; destruct Hend; repeat constructor.
Qed.

(** X3.  The run leaves the intake handler terminated on every path but one:
    the non-streaming run whose body is read and parsed without a throw
    returns with the handler still live. *)
Theorem live_handler_iff_whole_body_parsed :
  terminated (after (chatGenerateContent w input ctx)) = false
  <-> WholeBodyParsed w input ctx.
Proof.
  rewrite final_flag. unfold endsTerminated, WholeBodyParsed. split.
  - destruct (builtDispatch w input) as [dispatch|error]; [|discriminate].
    destruct (fetchResponseOrTRPCThrow w (fetchArgs w input ctx dispatch))
      as [dispatchResponse|error] eqn:Hfetched; [|discriminate].
    destruct (streaming input); [discriminate|].
    destruct (response_text dispatchResponse) as [dispatchBody|error] eqn:Htext;
      [|discriminate].
    destruct (parse_thrown (wholeParse w input dispatch dispatchBody)) eqn:Hparse;
      [discriminate|].
    intros _. split; [reflexivity|]. eauto 10.
  - intros (-> & dispatch & dispatchResponse & dispatchBody & -> & -> & -> & ->).
    reflexivity.
Qed.

(** X4.  Every call of the parse function is either the one call of the
    non-streaming branch, on the whole body and without a name, or a call of
    the pump on the data and name of an item of a demuxed batch whose type is
    [event] and whose data is not the sentinel: comments, keep-alives and
    [[DONE]] never reach the parse function. *)
Theorem parse_calls_come_from_events (data : string) (name : option string) :
  In (ActParse data name) (trace w input ctx) ->
  (streaming input = false /\ name = None /\
   In (ActText (Returns data)) (trace w input ctx))
  \/
  (streaming input = true /\
   exists chunk items item,
     In (ActDemux chunk items) (trace w input ctx) /\
     In item items /\
     (item_type item =? "event")%string = true /\
     (item_data item =? "[DONE]")%string = false /\
     data = item_data item /\ name = item_name item).
Proof.
  intros Hin.
  pose proof (trace_path w input ctx) as Hpath.
  remember (trace w input ctx) as t eqn:Ht.
  destruct Hpath
    as [error Hbuilt
       | dispatch error Hbuilt Hfetched
       | dispatch dispatchResponse error Hbuilt Hfetched Hstreaming Htext
       | dispatch dispatchResponse dispatchBody Hbuilt Hfetched Hstreaming Htext Hparse
       | dispatch dispatchResponse dispatchBody error Hbuilt Hfetched Hstreaming Htext Hparse
       | dispatch dispatchResponse q ending Hbuilt Hfetched Hstreaming Htrace Hcalm Hend].
  1: cbn in Hin; intuition discriminate.
  1-4: apply In_head in Hin; destruct Hin as [(e & He)|Hin]; [discriminate|].
  - cbn in Hin. intuition discriminate.
  - cbn in Hin. intuition discriminate.
  - left. cbn in Hin.
    destruct Hin as [Hin|[Hin|[Hin|[Hin|[]]]]]; try discriminate. injection Hin as <- <-.
    split; [exact Hstreaming|]. split; [reflexivity|].
    right. apply in_or_app. right. right. left. reflexivity.
  - left. cbn in Hin.
    destruct Hin as [Hin|[Hin|[Hin|[Hin|[Hin|[]]]]]]; try discriminate.
    injection Hin as <- <-.
    split; [exact Hstreaming|]. split; [reflexivity|].
    right. apply in_or_app. right. right. left. reflexivity.
  - right. split; [exact Hstreaming|].
    apply In_head in Hin. destruct Hin as [(e & He)|Hin]; [discriminate|].
    destruct Hin as [Hin|Hin]; [discriminate|].
    rewrite <- Htrace in Hin |- *. unfold pumpOf in Hin.
    destruct (dataPump_parses w _ _ _ _ _ (started w input) data name eq_refl Hin)
      as (chunk & items & item & Hdemux & Hrest).
    exists chunk, items, item. split; [|exact Hrest].
    right. apply in_or_app. right. right. exact Hdemux.
Qed.

(** X5.  A streaming run reads the inbound stream in order, one read at a
    time: the outcomes of the reads it performed are a prefix of the outcomes
    the stream holds, closed by the done of the used-up stream; nothing behind
    the read that ended the run is read. *)
Theorem reads_follow_the_stream (dispatch : Dispatch) (dispatchResponse : Response) :
  builtDispatch w input = Returns dispatch ->
  fetchResponseOrTRPCThrow w (fetchArgs w input ctx dispatch) = Returns dispatchResponse ->
  streaming input = true ->
  readsOf (trace w input ctx) <> [] /\
  exists unread,
    readerOf dispatchResponse ++ [ReadDone] = readsOf (trace w input ctx) ++ unread.
Proof.
  intros Hbuilt Hfetched Hstreaming.
  unfold trace. rewrite (streaming_stage w input ctx _ _ Hbuilt Hfetched Hstreaming).
  cbn [before performed]. rewrite readsOf_app.
  rewrite (proj1 (head_quiet dispatch)). cbn [app].
  split.
  - unfold pumpOf.
    destruct (readerOf dispatchResponse) as [|[value| |error] later].
    + rewrite dataPump_closed by auto. discriminate.
    + rewrite dataPump_value. discriminate.
    + rewrite dataPump_closed by eauto. discriminate.
    + rewrite dataPump_throws by reflexivity. discriminate.
  - unfold pumpOf. apply dataPump_reads. reflexivity.
Qed.

(** X6.  Every byte chunk the pump reads goes once through the text decoder
    and then through the demultiplexer, in the order read; the decoder and the
    demultiplexer are created once per run and each call works on the state
    the call before left, so a code point or a frame cut by a chunk boundary
    is carried over. *)
Theorem chunks_are_decoded_in_order (dispatch : Dispatch) :
  builtDispatch w input = Returns dispatch ->
  demuxesOf (trace w input ctx)
    = decodeAll w (newTextDecoder w) (createStreamDemuxer w (demuxerFormat dispatch))
        (valuesOf (trace w input ctx)).
Proof.
  intros Hbuilt. unfold trace.
  rewrite chatGenerateContent_stages, Hbuilt, connect_cases.
  destruct (fetchResponseOrTRPCThrow w (fetchArgs w input ctx dispatch))
    as [dispatchResponse|error].
  - destruct (streaming input).
    + rewrite !before_before. cbn [before performed].
      rewrite !demuxesOf_app, !valuesOf_app, demuxesOf_map, valuesOf_map.
      cbn [app demuxesOf valuesOf].
      unfold pumpOf. apply dataPump_decodes. reflexivity.
    + rewrite readWholeResponse_cases.
      destruct (response_text dispatchResponse) as [dispatchBody|error].
      * destruct (parse_thrown (wholeParse w input dispatch dispatchBody));
          cbn [before performed app demuxesOf valuesOf];
          rewrite demuxesOf_app, valuesOf_app, demuxesOf_map, valuesOf_map; reflexivity.
      * cbn [before performed app demuxesOf valuesOf].
        rewrite demuxesOf_app, valuesOf_app, demuxesOf_map, valuesOf_map. reflexivity.
  - cbn [before performed app demuxesOf valuesOf].
    rewrite demuxesOf_app, valuesOf_app, demuxesOf_map, valuesOf_map. reflexivity.
Qed.

(** X7.  What the transmitter holds when the run returns is what the parse
    calls of the run handed to it, in the order of the calls, on top of the
    empty transmitter: the router never clears, reorders or writes the
    transmitter itself, whether the run ends well or with an error. *)
Theorem transmitter_holds_the_parse_calls (dispatch : Dispatch) :
  builtDispatch w input = Returns dispatch ->
  partTransmitter (after (chatGenerateContent w input ctx))
    = replay (chatGenerateParse dispatch) (newPartTransmitter (prettyDialectOf w input))
        (parseCalls (trace w input ctx)).
Proof.
  intros Hbuilt. unfold trace.
  rewrite chatGenerateContent_stages, Hbuilt, connect_cases.
  destruct (fetchResponseOrTRPCThrow w (fetchArgs w input ctx dispatch))
    as [dispatchResponse|error].
  - destruct (streaming input).
    + rewrite !before_before. cbn [before performed after].
      rewrite !parseCalls_app, parseCalls_map. cbn [app parseCalls].
      unfold pumpOf. apply (dataPump_transmits w _ _ _ _ _ (started w input)). reflexivity.
    + rewrite readWholeResponse_cases.
      destruct (response_text dispatchResponse) as [dispatchBody|error].
      * unfold wholeParse.
        destruct (parse_thrown (chatGenerateParse dispatch
                                  (newPartTransmitter (prettyDialectOf w input))
                                  dispatchBody None));
          cbn [before performed after app parseCalls];
          rewrite parseCalls_app, parseCalls_map; reflexivity.
      * cbn [before performed after app parseCalls].
        rewrite parseCalls_app, parseCalls_map. reflexivity.
  - cbn [before performed after app parseCalls].
    rewrite parseCalls_app, parseCalls_map. reflexivity.
Qed.

Lemma calm_not_whole_body (a : Action) : calm a = true -> isWholeBodyAction a = false.
Proof. destruct a as [| | |[| |]| |[|]| | |]; cbn; congruence. Qed.

(** X8.  The stage of an error event tells which call failed, and the message
    is the one built from that failure: [dispatch-prepare] the dispatch
    builder, [dispatch-fetch] the fetch, [dispatch-read] the body read (the
    [text()] of a non-streaming run, or a chunk read of a streaming run that
    is not a client abort), [dispatch-parse] the parse function: on the whole
    body, or on the event item surfaced last, on which the parse function,
    called on the transmitter the calls before left, threw the error the
    message shows. *)
Theorem error_stage_tells_the_failure (stage : ErrorStage) (message : string)
    (visible : bool) :
  In (EvError stage message visible) (output w input ctx) ->
  Attributed w input ctx stage message.
Proof.
  change (output w input ctx) with (yields (trace w input ctx)).
  pose proof (trace_path w input ctx) as Hpath.
  remember (trace w input ctx) as t eqn:Ht.
  destruct Hpath
    as [error Hbuilt
       | dispatch error Hbuilt Hfetched
       | dispatch dispatchResponse error Hbuilt Hfetched Hstreaming Htext
       | dispatch dispatchResponse dispatchBody Hbuilt Hfetched Hstreaming Htext Hparse
       | dispatch dispatchResponse dispatchBody error Hbuilt Hfetched Hstreaming Htext Hparse
       | dispatch dispatchResponse q ending Hbuilt Hfetched Hstreaming Htrace Hcalm Hend].
  1: cbn; intros [Hin|[Hin|[]]]; [discriminate|]; injection Hin as <- <- _;
     exists error; split; [exact Hbuilt|reflexivity].
  1-4: rewrite yields_after_fetch; intros [Hin|Hin]; [discriminate|];
       apply in_app_or in Hin; destruct Hin as [Hin|Hin];
       [destruct (diagnostics_cases w input dispatch) as [Hd|(body & Hd)];
        rewrite Hd in Hin; cbn in Hin; intuition discriminate|].
  - cbn in Hin. destruct Hin as [Hin|[]]. injection Hin as <- <- _.
    exists dispatch, error. repeat split; assumption.
  - cbn in Hin. destruct Hin as [Hin|[]]. injection Hin as <- <- _.
    left. split; [exact Hstreaming|].
    exists dispatch, dispatchResponse, error. repeat split; assumption.
  - cbn in Hin. destruct Hin.
  - cbn in Hin. destruct Hin as [Hin|[]]. injection Hin as <- <- _.
    left. split; [exact Hstreaming|].
    exists dispatch, dispatchResponse, dispatchBody, error. repeat split; assumption.
  - clear Hcalm Hend Htrace. rewrite Ht. clear Ht q ending.
    destruct (stream_exact w input ctx dispatch dispatchResponse Hbuilt Hfetched Hstreaming)
      as (q & ending & Hexact & Hcalm & Hquiet & Hend).
    rewrite Hexact, yields_app, head_yields by exact Hcalm.
    intros Hin. apply in_app_or in Hin. destruct Hin as [[Hin|Hin]|Hin]; [discriminate| |].
    { destruct (diagnostics_cases w input dispatch) as [Hd|(body & Hd)];
        rewrite Hd in Hin; cbn in Hin; intuition discriminate. }
    destruct Hend as [Hend|(last & Hend)].
    + destruct Hend as [|error Habort|error Hother];
        cbn in Hin; try (destruct Hin as [Hin|[]]); try discriminate; try contradiction.
      injection Hin as <- <- _. right. split; [exact Hstreaming|].
      exists error. split; [|split; [exact Hother|reflexivity]].
      rewrite Hexact. apply in_or_app. right. left. reflexivity.
    + remember (replay (chatGenerateParse dispatch)
                  (newPartTransmitter (prettyDialectOf w input)) (parseCalls q))
        as transmitter eqn:Htransmitter.
      destruct Hend as [i Hi|i error Htype Hdata Hthrown];
        cbn in Hin; try (destruct Hin as [Hin|[]]); try discriminate; try contradiction.
      injection Hin as <- <- _. right. split; [exact Hstreaming|].
      exists dispatch,
        ((ActYield EvStart :: map ActYield (debugEvents w input dispatch)
            ++ [ActFetch (fetchArgs w input ctx dispatch)]) ++ q), i, error.
      split; [exact Hbuilt|]. split; [exact Hexact|]. split; [exact Htype|].
      split; [|reflexivity].
      rewrite parseCalls_app, head_parses_nothing. cbn [app].
      rewrite <- Htransmitter. exact Hthrown.
Qed.

(** X9.  The two modes do not mix: only a streaming run reads chunks, calls the
    demultiplexer, surfaces demuxed items or marks termination, and only a
    non-streaming run calls [text()] and surfaces the whole body. *)
Theorem modes_do_not_mix :
  (forall a, In a (trace w input ctx) -> isPumpAction a = true -> streaming input = true) /\
  (forall a, In a (trace w input ctx) -> isWholeBodyAction a = true ->
             streaming input = false).
Proof.
  split.
  - intros a Hin Hpump. exact (proj1 (pump_action_streams w input ctx a Hpump Hin)).
  - intros a Hin Hwhole.
    pose proof (trace_path w input ctx) as Hpath.
    remember (trace w input ctx) as t eqn:Ht.
    destruct Hpath
      as [error Hbuilt
         | dispatch error Hbuilt Hfetched
         | dispatch dispatchResponse error Hbuilt Hfetched Hstreaming Htext
         | dispatch dispatchResponse dispatchBody Hbuilt Hfetched Hstreaming Htext Hparse
         | dispatch dispatchResponse dispatchBody error Hbuilt Hfetched Hstreaming Htext Hparse
         | dispatch dispatchResponse q ending Hbuilt Hfetched Hstreaming Htrace Hcalm Hend];
      try exact Hstreaming.
    + cbn in Hin. destruct Hin as [<-|[<-|[]]]; discriminate.
    + apply In_head in Hin. destruct Hin as [(e & ->)|Hin]; [discriminate|].
      cbn in Hin. destruct Hin as [<-|[<-|[]]]; discriminate.
    + exfalso. apply In_head in Hin. destruct Hin as [(e & ->)|Hin]; [discriminate|].
      destruct Hin as [<-|Hin]; [discriminate|].
      apply in_app_or in Hin. destruct Hin as [Hin|Hin].
      * rewrite Forall_forall in Hcalm. specialize (Hcalm a Hin).
        apply calm_not_whole_body in Hcalm. congruence.
      * destruct Hend as [Hend|Hend]; destruct Hend; cbn in Hin;
          repeat (destruct Hin as [<-|Hin]; [discriminate|]); destruct Hin.
Qed.

(** X11.  When the dispatch builder throws, the run is [start] and
    [error(dispatch-prepare)] and nothing else: no diagnostic event even with
    the debug flag set in development, no fetch, an empty transmitter, and the
    handler terminated. *)
Theorem build_failure_run (error : JsError) :
  builtDispatch w input = Throws error ->
  chatGenerateContent w input ctx
    = {| value := tt;
         after := closed (started w input);
         performed :=
           [ActYield EvStart;
            ActYield (EvError dispatch_prepare (prepareMessage w input error) false)] |}.
Proof.
  intros Hbuilt. rewrite chatGenerateContent_stages, Hbuilt. reflexivity.
Qed.

(** X12.  In non-streaming mode, when [text()] throws, the run is [start], the
    diagnostic event if any, the fetch, the failed read and
    [error(dispatch-read)] with the shared-log flag off: the body is not
    surfaced, the parse function is not called and the transmitter stays
    empty. *)
Theorem whole_body_read_failure (dispatch : Dispatch) (dispatchResponse : Response)
    (error : JsError) :
  streaming input = false ->
  builtDispatch w input = Returns dispatch ->
  fetchResponseOrTRPCThrow w (fetchArgs w input ctx dispatch) = Returns dispatchResponse ->
  response_text dispatchResponse = Throws error ->
  trace w input ctx
    = ActYield EvStart :: map ActYield (debugEvents w input dispatch)
        ++ [ActFetch (fetchArgs w input ctx dispatch); ActText (Throws error);
            ActYield (EvError dispatch_read (readMessage w input error) false)] /\
  output w input ctx
    = EvStart :: debugEvents w input dispatch
        ++ [EvError dispatch_read (readMessage w input error) false] /\
  transmitter_operations (partTransmitter (after (chatGenerateContent w input ctx))) = [].
Proof.
  intros Hstreaming Hbuilt Hfetched Htext.
  assert (Hrun : chatGenerateContent w input ctx
                 = {| value := tt; after := closed (started w input);
                      performed :=
                        ActYield EvStart :: map ActYield (debugEvents w input dispatch)
                          ++ [ActFetch (fetchArgs w input ctx dispatch);
                              ActText (Throws error);
                              ActYield (EvError dispatch_read (readMessage w input error)
                                          false)] |}).
  { rewrite chatGenerateContent_stages, Hbuilt, connect_cases, Hfetched, Hstreaming,
      readWholeResponse_cases, Htext.
    reflexivity. }
  unfold output, trace. rewrite Hrun. cbn [performed after].
  split; [reflexivity|]. split; [|reflexivity].
  rewrite yields_after_fetch. reflexivity.
Qed.

(** X13.  A [termination] event is emitted by streaming runs only, and its
    cause tells the ending: [dispatch-close] follows a read that reported
    done, [event-done] follows a surfaced sentinel.  The router never emits
    [termination(client-abort)]. *)
Theorem termination_cause_tells_the_ending (cause : TerminationCause) :
  In (EvTermination cause) (output w input ctx) ->
  streaming input = true /\
  ((cause = dispatch_close /\ In (ActRead ReadDone) (trace w input ctx))
   \/
   (cause = event_done /\
    exists item,
      isDoneEvent item = true /\ In (ActReceived (WireItem item)) (trace w input ctx))).
Proof.
  change (output w input ctx) with (yields (trace w input ctx)).
  pose proof (trace_path w input ctx) as Hpath.
  remember (trace w input ctx) as t eqn:Ht.
  destruct Hpath
    as [error Hbuilt
       | dispatch error Hbuilt Hfetched
       | dispatch dispatchResponse error Hbuilt Hfetched Hstreaming Htext
       | dispatch dispatchResponse dispatchBody Hbuilt Hfetched Hstreaming Htext Hparse
       | dispatch dispatchResponse dispatchBody error Hbuilt Hfetched Hstreaming Htext Hparse
       | dispatch dispatchResponse q ending Hbuilt Hfetched Hstreaming Htrace Hcalm Hend].
  1: cbn; intuition discriminate.
  1-5: rewrite yields_after_fetch; intros [Hin|Hin]; [discriminate|];
       apply in_app_or in Hin; destruct Hin as [Hin|Hin];
       [destruct (diagnostics_cases w input dispatch) as [Hd|(body & Hd)];
        rewrite Hd in Hin; cbn in Hin; intuition discriminate|].
  1-4: cbn in Hin; intuition discriminate.
  split; [exact Hstreaming|].
  rewrite yields_app, (calm_yields q Hcalm) in Hin.
  destruct Hend as [Hend|Hend];
    [destruct Hend as [|error Habort|error Hother]
    |destruct Hend as [i Hi|i error Htype Hdata]];
    cbn in Hin; try (destruct Hin as [Hin|[]]); try discriminate; try contradiction.
  - injection Hin as <-. left. split; [reflexivity|].
    right. apply in_or_app. right. right. apply in_or_app. right. left. reflexivity.
  - injection Hin as <-. right. split; [reflexivity|].
    exists i. split; [exact Hi|].
    right. apply in_or_app. right. right. apply in_or_app. right. left. reflexivity.
Qed.

(** X14.  The diagnostic event shows the request body that is sent: its text is
    the serialization of the body of the one fetch of the run. *)
Theorem diagnostic_shows_the_fetched_body (body : string) :
  In (EvDebugClientPrint body) (output w input ctx) ->
  exists args,
    fetches (trace w input ctx) = [args] /\
    body = JSON_stringify w (fetch_body args).
Proof.
  change (output w input ctx) with (yields (trace w input ctx)).
  destruct (trace_layout w input ctx)
    as [(error & _ & ->)|(dispatch & rest & _ & -> & Hrest & Hnone)].
  - cbn. intuition discriminate.
  - rewrite yields_after_fetch. intros [Hin|Hin]; [discriminate|].
    apply in_app_or in Hin. destruct Hin as [Hin|Hin].
    + destruct (debugEvents_cases w input dispatch) as [(Hd & _)|(Hd & _)];
        rewrite Hd in Hin; cbn in Hin; [destruct Hin|destruct Hin as [Hin|[]]].
      injection Hin as <-. exists (fetchArgs w input ctx dispatch).
      split; [apply fetches_layout; exact Hnone|reflexivity].
    + rewrite Forall_forall in Hrest. specialize (Hrest _ Hin). discriminate.
Qed.

(** X15.  In a streaming run the items surfaced to the intake handler are the
    items of the demuxed batches, in the order demuxed and without a gap:
    nothing is surfaced that was not demuxed, and nothing is skipped or
    surfaced twice.  Demuxed items stay unsurfaced only behind the item that
    ended the run, which is then the last one surfaced; a run that no item
    ended surfaces every item of every batch. *)
Theorem surfaced_items_follow_the_batches :
  exists unseen,
    concat (map snd (demuxesOf (trace w input ctx)))
      = surfaced (trace w input ctx) ++ unseen /\
    (unseen = []
     \/ exists pre ending last,
          trace w input ctx = pre ++ ending /\
          ItemEnding (prettyDialectOf w input) ending /\
          surfaced ending = [last]).
Proof.
  unfold trace. rewrite chatGenerateContent_stages.
  destruct (builtDispatch w input) as [dispatch|error];
    [|exists []; split; [reflexivity|left; reflexivity]].
  rewrite connect_cases.
  destruct (fetchResponseOrTRPCThrow w (fetchArgs w input ctx dispatch))
    as [dispatchResponse|error].
  - destruct (streaming input).
    + destruct (dataPump_surfaces_until_cut w (prettyDialectOf w input)
                  (chatGenerateParse dispatch)
                  (readerOf dispatchResponse) (newTextDecoder w)
                  (createStreamDemuxer w (demuxerFormat dispatch)) (started w input) eq_refl)
        as (unseen & Hpump & Hcut).
      exists unseen. rewrite !before_before. cbn [before performed]. split.
      * rewrite !demuxesOf_app, !surfaced_app, demuxesOf_map, surfaced_map.
        cbn [app demuxesOf surfaced]. exact Hpump.
      * destruct Hcut as [->|(q & ending & Htrace & Hend)]; [left; reflexivity|].
        right. fold (pumpOf w input dispatch dispatchResponse).
        unfold pumpOf. rewrite Htrace.
        rewrite (app_assoc _ q ending).
        destruct Hend as [i Hi|i error Htype Hdata]; eexists _, _, i;
          (split; [reflexivity|]); (split; [|reflexivity]).
        -- apply EndDone. exact Hi.
        -- apply EndParse; assumption.
    + exists []. split; [|left; reflexivity]. rewrite readWholeResponse_cases.
      destruct (response_text dispatchResponse) as [dispatchBody|error].
      * destruct (parse_thrown (wholeParse w input dispatch dispatchBody));
          cbn [before performed app demuxesOf surfaced];
          rewrite demuxesOf_app, surfaced_app, demuxesOf_map, surfaced_map; reflexivity.
      * cbn [before performed app demuxesOf surfaced].
        rewrite demuxesOf_app, surfaced_app, demuxesOf_map, surfaced_map. reflexivity.
  - exists []. split; [|left; reflexivity]. cbn [before performed app demuxesOf surfaced].
    rewrite demuxesOf_app, surfaced_app, demuxesOf_map, surfaced_map. reflexivity.
Qed.

(** X16.  In a streaming run the parse function is called once on every
    surfaced item that is an event and not the sentinel, in the order
    surfaced, with the data and the name of the item, and on nothing else;
    every call but the last returns without throwing, so that a call that
    throws is the last one. *)
Theorem every_surfaced_event_is_parsed_once (dispatch : Dispatch) :
  streaming input = true ->
  builtDispatch w input = Returns dispatch ->
  parseCalls (trace w input ctx)
    = map callOf (filter parsable (surfaced (trace w input ctx))) /\
  quietCalls (chatGenerateParse dispatch) (newPartTransmitter (prettyDialectOf w input))
    (removelast (parseCalls (trace w input ctx))).
Proof.
  intros Hstreaming Hbuilt. split.
  - unfold trace. rewrite chatGenerateContent_stages, Hbuilt.
    rewrite connect_cases, Hstreaming.
    destruct (fetchResponseOrTRPCThrow w (fetchArgs w input ctx dispatch))
      as [dispatchResponse|error].
    + rewrite !before_before. cbn [before performed].
      rewrite !parseCalls_app, !surfaced_app, parseCalls_map, surfaced_map.
      cbn [app parseCalls surfaced].
      unfold pumpOf. apply dataPump_parses_surfaced. reflexivity.
    + cbn [before performed app parseCalls surfaced].
      rewrite parseCalls_app, surfaced_app, parseCalls_map, surfaced_map. reflexivity.
  - destruct (fetchResponseOrTRPCThrow w (fetchArgs w input ctx dispatch))
      as [dispatchResponse|error] eqn:Hfetched.
    + destruct (stream_exact w input ctx dispatch dispatchResponse Hbuilt Hfetched Hstreaming)
        as (q & ending & Hexact & Hcalm & Hquiet & Hend).
      rewrite Hexact, !parseCalls_app, head_parses_nothing. cbn [app].
      destruct Hend as [Hend|(last & Hend)]; destruct Hend; cbn [parseCalls];
        rewrite ?app_nil_r, ?removelast_last;
        first [exact Hquiet|apply quietCalls_removelast; exact Hquiet].
    + unfold trace.
      rewrite chatGenerateContent_stages, Hbuilt, connect_cases, Hfetched.
      cbn [before performed app parseCalls].
      rewrite parseCalls_app, parseCalls_map. exact I.
Qed.

End MoreRunFacts.

(** ** The Supabase sync store *)

Section StoreFacts.

Import SupabaseSync.

Lemma last_cons {A : Type} (a d : A) (l : list A) : last (a :: l) d = last l a.
Proof.
  revert a d. induction l as [|b l IH]; intros a d; [reflexivity|].
  change (last (a :: b :: l) d) with (last (b :: l) d).
  rewrite !IH. reflexivity.
Qed.

(** X10.  After any sequence of calls of the three setters, each setting holds
    the argument of the last call of its own setter, and the value it had
    before when its setter was not called: a setter writes its own field and
    no other. *)
Theorem setters_write_their_own_field (calls : list Call) (state : ModuleSupabaseSyncStore) :
  supabaseUrl (performAll calls state) = last (urlsSet calls) (supabaseUrl state) /\
  supabaseKey (performAll calls state) = last (keysSet calls) (supabaseKey state) /\
  lastSyncTime (performAll calls state) = last (timesSet calls) (lastSyncTime state).
Proof.
  revert state. induction calls as [|call calls IH]; intros state; [repeat split|].
  unfold performAll in *. cbn [fold_left].
  destruct (IH (perform state call)) as (Hurl & Hkey & Htime).
  rewrite Hurl, Hkey, Htime.
  destruct call; cbn [urlsSet keysSet timesSet]; rewrite ?last_cons; repeat split.
Qed.

End StoreFacts.

(** * The claims at concrete runs *)

(** The second example of spec 8 on this router: the delta goes to the
    transmitter, the output sequence holds the life-cycle events. *)
Example stream_with_sentinel :
  output (Demo.world "production" Demo.doneThenMore) (Demo.input None true false) Demo.ctx
    = [EvStart; EvTermination event_done] /\
  transmitter_operations
    (partTransmitter (after (chatGenerateContent (Demo.world "production" Demo.doneThenMore)
                               (Demo.input None true false) Demo.ctx)))
    = ["Hi"%string].
Proof. split; reflexivity. Qed.

(** A build failure (spec 8). *)
Example build_failure :
  output (Demo.world "production" Demo.noBody) Demo.noModel Demo.ctx
    = [EvStart;
       EvError dispatch_prepare "**[Configuration Issue] Openai**: No model"%string false].
Proof. reflexivity. Qed.

(** The non-streaming run whose body parses yields [start] alone. *)
Example whole_body_parsed :
  output (Demo.world "production" (Demo.bodyOf "fine")) (Demo.input None false false) Demo.ctx
    = [EvStart].
Proof. reflexivity. Qed.

(** C1, as stated, fails on the run that a client abort ends: its output
    sequence is [start] alone. *)
Lemma C1_abort_is_not_framed :
  ~ Framed (output (Demo.world "production" Demo.abortedStream)
              (Demo.input None true false) Demo.ctx).
Proof.
  intros (middle & final & Hout & _).
  vm_compute in Hout. injection Hout as Hout.
  destruct middle; discriminate.
Qed.

(** C2, as stated, fails when the sentinel is demuxed behind a message that
    does not parse: the run ends with [error(dispatch-parse)]. *)
Lemma C2_sentinel_behind_parse_failure :
  ~ SentinelHonoured (trace (Demo.world "production" Demo.brokenThenDone)
                        (Demo.input None true false) Demo.ctx).
Proof.
  intros Hclaim.
  assert (Hin : In (EvTermination event_done)
                  (yields (trace (Demo.world "production" Demo.brokenThenDone)
                             (Demo.input None true false) Demo.ctx))).
  { apply (Hclaim (Demo.line "not-json" ++ Demo.line "[DONE]")%string
             [Demo.event "not-json"; Demo.event "[DONE]"] (Demo.event "[DONE]")).
    - find_in.
    - right. left. reflexivity.
    - reflexivity. }
  vm_compute in Hin. destruct Hin as [Hin|[Hin|[]]]; discriminate.
Qed.

Lemma C2_sentinel_ends_run_witness :
  isDoneEvent (Demo.event "[DONE]") = true /\
  In (ActReceived (WireItem (Demo.event "[DONE]")))
    (trace (Demo.world "production" Demo.doneThenMore) (Demo.input None true false) Demo.ctx) /\
  streaming (Demo.input None true false) = true /\
  terminated (after (chatGenerateContent (Demo.world "production" Demo.doneThenMore)
                       (Demo.input None true false) Demo.ctx)) = true /\
  exists pre,
    trace (Demo.world "production" Demo.doneThenMore) (Demo.input None true false) Demo.ctx
      = pre ++ [ActReceived (WireItem (Demo.event "[DONE]"));
                ActYield (EvTermination event_done)] /\
    Forall (fun e => isTerminal e = false) (yields pre).
Proof.
  split; [reflexivity|]. split; [find_in|].
  apply (C2_sentinel_ends_run (Demo.world "production" Demo.doneThenMore)
           (Demo.input None true false) Demo.ctx (Demo.event "[DONE]")).
  - reflexivity.
  - find_in.
Defined.

(** C3, as stated, fails on a batch that holds the sentinel and a trailing
    message: the trailing message is never surfaced. *)
Lemma C3_message_behind_sentinel_not_surfaced :
  ~ AllSurfaced (trace (Demo.world "production" Demo.doneThenMore)
                   (Demo.input None true false) Demo.ctx).
Proof.
  intros Hclaim.
  assert (Hin : In (ActReceived (WireItem (Demo.event "late")))
                  (trace (Demo.world "production" Demo.doneThenMore)
                     (Demo.input None true false) Demo.ctx)).
  { apply (Hclaim (Demo.line "[DONE]" ++ Demo.line "late")%string
             [Demo.event "[DONE]"; Demo.event "late"]).
    - find_in.
    - right. left. reflexivity. }
  vm_compute in Hin.
  repeat (destruct Hin as [Hin|Hin]; [discriminate|]). destruct Hin.
Qed.

Lemma C3_batch_surfaced_witness :
  trace (Demo.production Demo.brokenInBatch) Demo.streamingInput Demo.ctx
    = firstn 3 (trace (Demo.production Demo.brokenInBatch) Demo.streamingInput Demo.ctx)
      ++ ActDemux (Demo.line "Hi" ++ Demo.line "not-json" ++ Demo.line "late")%string
           [Demo.event "Hi"; Demo.event "not-json"; Demo.event "late"]
         :: skipn 4 (trace (Demo.production Demo.brokenInBatch) Demo.streamingInput
                       Demo.ctx) /\
  exists dispatch,
    builtDispatch (Demo.production Demo.brokenInBatch) Demo.streamingInput
      = Returns dispatch /\
    BatchCut (prettyDialectOf (Demo.production Demo.brokenInBatch) Demo.streamingInput)
      (chatGenerateParse dispatch)
      (replay (chatGenerateParse dispatch)
         (newPartTransmitter
            (prettyDialectOf (Demo.production Demo.brokenInBatch) Demo.streamingInput))
         (parseCalls
            (firstn 3 (trace (Demo.production Demo.brokenInBatch) Demo.streamingInput
                         Demo.ctx))))
      [Demo.event "Hi"; Demo.event "not-json"; Demo.event "late"]
      (skipn 4 (trace (Demo.production Demo.brokenInBatch) Demo.streamingInput Demo.ctx)).
Proof.
  split; [vm_compute; reflexivity|].
  apply (C3_batch_surfaced (Demo.production Demo.brokenInBatch) Demo.streamingInput Demo.ctx
           (firstn 3 (trace (Demo.production Demo.brokenInBatch) Demo.streamingInput
                        Demo.ctx))
           (Demo.line "Hi" ++ Demo.line "not-json" ++ Demo.line "late")%string).
  vm_compute. reflexivity.
Defined.

(** C4 (code defect).  On the non-streaming run of the body [not-json], on
    which the parse function hands the operation [partial] to the transmitter
    and then throws, the output sequence is [start] and
    [error(dispatch-parse)] and nothing else: the operation handed over before
    the failure is not in the output sequence, where the specification (4.2,
    4.5, 8) has the generated content next to the error.  The router has no
    [yield] for the operations of the transmitter: the forwarding is the
    [yieldDmaOps] that lines 99 and 165 leave to do. *)
Theorem C4_operations_not_forwarded :
  parse_operations
    (wholeParse (Demo.production (Demo.bodyOf "not-json")) Demo.wholeInput
       (Demo.dispatch "{}") "not-json")
    = ["partial"%string] /\
  parse_thrown
    (wholeParse (Demo.production (Demo.bodyOf "not-json")) Demo.wholeInput
       (Demo.dispatch "{}") "not-json")
    = Some Demo.syntaxError /\
  output (Demo.production (Demo.bodyOf "not-json")) Demo.wholeInput Demo.ctx
    = [EvStart;
       EvError dispatch_parse
         (parseMessage (Demo.production (Demo.bodyOf "not-json")) Demo.wholeInput
            Demo.syntaxError "not-json")
         true] /\
  ~ In (@EvOperation Demo.externals "partial"%string)
      (output (Demo.production (Demo.bodyOf "not-json")) Demo.wholeInput Demo.ctx).
Proof.
  split; [reflexivity|]. split; [reflexivity|]. split; [reflexivity|].
  apply operations_never_yielded.
Qed.

(** C5, as stated, fails on the self-hosted endpoint of another dialect: the
    user set the host, and the fetch error is flagged for the shared log. *)
Lemma C5_other_dialect_with_host_is_flagged :
  ~ FetchFlagFollowsCustomEndpoint (access Demo.localaiInput)
      (output (Demo.production Demo.refused) Demo.localaiInput Demo.ctx).
Proof.
  intros Hclaim.
  assert (Hflag := Hclaim
            (fetchMessage (Demo.production Demo.refused) Demo.localaiInput
               (Demo.dispatch "{}") Demo.reset)
            true).
  assert (Hin : In (EvError dispatch_fetch
                      (fetchMessage (Demo.production Demo.refused) Demo.localaiInput
                         (Demo.dispatch "{}") Demo.reset)
                      true)
                  (output (Demo.production Demo.refused) Demo.localaiInput Demo.ctx))
    by find_in.
  specialize (Hflag Hin). vm_compute in Hflag. discriminate Hflag.
Qed.

Lemma C5_fetch_error_visibility_witness :
  output (Demo.world "production" Demo.refused)
    (Demo.input (Some "http://localhost:1234"%string) true false) Demo.ctx
    = [EvStart;
       EvError dispatch_fetch
         (fetchMessage (Demo.world "production" Demo.refused)
            (Demo.input (Some "http://localhost:1234"%string) true false)
            (Demo.dispatch "{}") Demo.reset)
         false] /\
  output (Demo.production Demo.refused) Demo.localaiInput Demo.ctx
    = [EvStart;
       EvError dispatch_fetch
         (fetchMessage (Demo.production Demo.refused) Demo.localaiInput
            (Demo.dispatch "{}") Demo.reset)
         true] /\
  showOnConsoleForNonCustomServers
    (access (Demo.input (Some "http://localhost:1234"%string) true false)) = false /\
  false = stageVisibility (Demo.input (Some "http://localhost:1234"%string) true false)
            dispatch_fetch /\
  true = stageVisibility (Demo.input None true false) dispatch_fetch.
Proof.
  split; [|split; [|split; [|split]]].
  - exact (proj1 (C5_fetch_error_visibility (Demo.world "production" Demo.refused)
                    (Demo.input (Some "http://localhost:1234"%string) true false) Demo.ctx)
             (Demo.dispatch "{}") Demo.reset eq_refl eq_refl).
  - exact (proj1 (C5_fetch_error_visibility (Demo.production Demo.refused)
                    Demo.localaiInput Demo.ctx)
             (Demo.dispatch "{}") Demo.reset eq_refl eq_refl).
  - apply (proj1 (proj2 (C5_fetch_error_visibility (Demo.world "production" Demo.refused)
                           (Demo.input (Some "http://localhost:1234"%string) true false)
                           Demo.ctx))).
    split; reflexivity.
  - apply (proj2 (proj2 (C5_fetch_error_visibility (Demo.world "production" Demo.refused)
                           (Demo.input (Some "http://localhost:1234"%string) true false)
                           Demo.ctx))
             dispatch_fetch
             (fetchMessage (Demo.world "production" Demo.refused)
                (Demo.input (Some "http://localhost:1234"%string) true false)
                (Demo.dispatch "{}") Demo.reset)).
    find_in.
  - apply (proj2 (proj2 (C5_fetch_error_visibility (Demo.world "production" Demo.refused)
                           (Demo.input None true false) Demo.ctx))
             dispatch_fetch
             (fetchMessage (Demo.world "production" Demo.refused)
                (Demo.input None true false) (Demo.dispatch "{}") Demo.reset)).
    find_in.
Defined.

(** C6, as stated, fails when the cancellation reaches the read as an
    [AbortError]: the run ends with [error(dispatch-read)]. *)
Lemma C6_abort_error_is_reported :
  ~ CancellationIsSilent (trace (Demo.production Demo.cancelledStream) Demo.streamingInput
                            Demo.ctx).
Proof.
  intros Hclaim.
  assert (Hin : In (ActRead (ReadThrows Demo.abortError))
                  (trace (Demo.production Demo.cancelledStream) Demo.streamingInput
                     Demo.ctx))
    by find_in.
  specialize (Hclaim Demo.abortError Hin eq_refl).
  vm_compute in Hclaim.
  inversion Hclaim as [|e1 l1 _ Hrest]. inversion Hrest as [|e2 l2 Hbad _].
  discriminate Hbad.
Qed.

Lemma C6_read_failures_witness :
  In (ActRead (ReadThrows Demo.aborted))
    (trace (Demo.world "production" Demo.abortedStream) (Demo.input None true false) Demo.ctx) /\
  terminated (after (chatGenerateContent (Demo.world "production" Demo.abortedStream)
                       (Demo.input None true false) Demo.ctx)) = true /\
  Forall (fun e => isTerminal e = false)
    (output (Demo.world "production" Demo.abortedStream) (Demo.input None true false) Demo.ctx) /\
  exists pre,
    trace (Demo.world "production" Demo.resetStream) (Demo.input None true false) Demo.ctx
      = pre ++ [ActRead (ReadThrows Demo.reset);
                ActYield (EvError dispatch_read
                            (streamReadMessage
                               (prettyDialectOf (Demo.world "production" Demo.resetStream)
                                  (Demo.input None true false))
                               Demo.reset)
                            false)].
Proof.
  split; [find_in|].
  destruct (C6_read_failures (Demo.world "production" Demo.abortedStream)
              (Demo.input None true false) Demo.ctx Demo.aborted)
    as (_ & Hterminated & _ & Hquiet); [find_in|].
  destruct (C6_read_failures (Demo.world "production" Demo.resetStream)
              (Demo.input None true false) Demo.ctx Demo.reset)
    as (_ & _ & pre & Htrace & _); [find_in|].
  split; [exact Hterminated|]. split; [exact Hquiet|].
  exists pre. exact Htrace.
Defined.


Lemma C8_debug_print_witness :
  (debugFlag (Demo.input None true true) = true /\
   NODE_ENV (Demo.world "development" Demo.closingStream) = "development"%string) /\
  chatGenerateContent (Demo.world "production" Demo.closingStream)
    (withConnectionOptions (Demo.input None true true)
       (Some {| debugDispatchRequestbody := Some false |})) Demo.ctx
    = chatGenerateContent (Demo.world "production" Demo.closingStream)
        (Demo.input None true true) Demo.ctx.
Proof.
  split.
  - destruct (proj1 (C8_debug_print (Demo.world "development" Demo.closingStream)
                       (Demo.input None true true) Demo.ctx) "{}"%string)
      as (Hflag & Henv & _); [find_in|].
    split; [exact Hflag|exact Henv].
  - apply (proj2 (C8_debug_print (Demo.world "production" Demo.closingStream)
                    (Demo.input None true true) Demo.ctx)).
    discriminate.
Defined.

Lemma C9_fetch_is_post_witness :
  request_method (request (Demo.dispatch "{}")) = "GET"%string /\
  fetch_method (fetchArgs (Demo.world "production" Demo.closingStream)
                  (Demo.input None true false) Demo.ctx (Demo.dispatch "{}"))
    = "POST"%string /\
  chatGenerateContent (withRequestMethod (Demo.world "production" Demo.closingStream) "PUT")
    (Demo.input None true false) Demo.ctx
    = chatGenerateContent (Demo.world "production" Demo.closingStream)
        (Demo.input None true false) Demo.ctx.
Proof.
  split; [reflexivity|]. split.
  - apply (proj1 (C9_fetch_is_post (Demo.world "production" Demo.closingStream)
                    (Demo.input None true false) Demo.ctx)
             (fetchArgs (Demo.world "production" Demo.closingStream)
                (Demo.input None true false) Demo.ctx (Demo.dispatch "{}"))).
    find_in.
  - exact (proj2 (C9_fetch_is_post (Demo.world "production" Demo.closingStream)
                    (Demo.input None true false) Demo.ctx) "PUT"%string).
Defined.

(** C10, as stated, fails in development with the debug flag set: the
    diagnostic event stands between [start] and the termination. *)
Lemma C10_diagnostic_in_output :
  output (Demo.world "development" Demo.noBody) (Demo.input None true true) Demo.ctx
    <> [EvStart; EvTermination dispatch_close].
Proof. intros Hout. vm_compute in Hout. discriminate Hout. Qed.

Lemma C10_missing_body_closes_witness :
  output (Demo.world "production" Demo.noBody) (Demo.input None true true) Demo.ctx
    = [EvStart; EvTermination dispatch_close] /\
  output (Demo.world "development" Demo.noBody) (Demo.input None true true) Demo.ctx
    = [EvStart; EvDebugClientPrint "{}"; EvTermination dispatch_close].
Proof.
  split.
  - exact (proj1 (proj2 (C10_missing_body_closes (Demo.world "production" Demo.noBody)
                           (Demo.input None true true) Demo.ctx (Demo.dispatch "{}")
                           {| response_body := None; response_text := Returns EmptyString |}
                           eq_refl eq_refl eq_refl eq_refl))).
  - exact (proj1 (proj2 (C10_missing_body_closes (Demo.world "development" Demo.noBody)
                           (Demo.input None true true) Demo.ctx (Demo.dispatch "{}")
                           {| response_body := None; response_text := Returns EmptyString |}
                           eq_refl eq_refl eq_refl eq_refl))).
Defined.

(** * The further properties at concrete runs *)

(** A line cut by a chunk boundary is demuxed once, whole. *)
Example cut_line_is_demuxed_whole :
  demuxesOf (trace (Demo.production Demo.cutStream) Demo.streamingInput Demo.ctx)
    = [("He"%string, []); (Demo.line "llo", [Demo.event "Hello"])] /\
  parseCalls (trace (Demo.production Demo.cutStream) Demo.streamingInput Demo.ctx)
    = [("Hello"%string, None)].
Proof. split; reflexivity. Qed.

Lemma live_handler_iff_whole_body_parsed_witness :
  WholeBodyParsed (Demo.production (Demo.bodyOf "fine")) Demo.wholeInput Demo.ctx.
Proof.
  apply (proj1 (live_handler_iff_whole_body_parsed (Demo.production (Demo.bodyOf "fine"))
                  Demo.wholeInput Demo.ctx)).
  reflexivity.
Defined.

Lemma parse_calls_come_from_events_witness :
  In (ActParse "Hi" None)
    (trace (Demo.production Demo.closingStream) Demo.streamingInput Demo.ctx) /\
  ((streaming Demo.streamingInput = false /\ @None string = None /\
    In (ActText (Returns "Hi"%string))
      (trace (Demo.production Demo.closingStream) Demo.streamingInput Demo.ctx))
   \/
   (streaming Demo.streamingInput = true /\
    exists chunk items item,
      In (ActDemux chunk items)
        (trace (Demo.production Demo.closingStream) Demo.streamingInput Demo.ctx) /\
      In item items /\
      (item_type item =? "event")%string = true /\
      (item_data item =? "[DONE]")%string = false /\
      "Hi"%string = item_data item /\ None = item_name item)).
Proof.
  split; [find_in|].
  apply (parse_calls_come_from_events (Demo.production Demo.closingStream)
           Demo.streamingInput Demo.ctx "Hi"%string None).
  find_in.
Defined.

Lemma reads_follow_the_stream_witness :
  readsOf (trace (Demo.production Demo.abortedStream) Demo.streamingInput Demo.ctx) <> [] /\
  exists unread,
    [Demo.chunk (Demo.line "Hi"); ReadThrows Demo.aborted] ++ [ReadDone]
      = readsOf (trace (Demo.production Demo.abortedStream) Demo.streamingInput Demo.ctx)
          ++ unread.
Proof.
  exact (reads_follow_the_stream (Demo.production Demo.abortedStream) Demo.streamingInput
           Demo.ctx (Demo.dispatch "{}")
           {| response_body := Some [Demo.chunk (Demo.line "Hi"); ReadThrows Demo.aborted];
              response_text := Returns EmptyString |}
           eq_refl eq_refl eq_refl).
Defined.

Lemma chunks_are_decoded_in_order_witness :
  demuxesOf (trace (Demo.production Demo.cutStream) Demo.streamingInput Demo.ctx)
    = decodeAll (Demo.production Demo.cutStream) tt EmptyString
        (valuesOf (trace (Demo.production Demo.cutStream) Demo.streamingInput Demo.ctx)).
Proof.
  exact (chunks_are_decoded_in_order (Demo.production Demo.cutStream) Demo.streamingInput
           Demo.ctx (Demo.dispatch "{}") eq_refl).
Defined.

Lemma transmitter_holds_the_parse_calls_witness :
  partTransmitter (after (chatGenerateContent (Demo.production Demo.doneThenMore)
                            Demo.streamingInput Demo.ctx))
    = replay Demo.parse (newPartTransmitter "Openai")
        (parseCalls (trace (Demo.production Demo.doneThenMore) Demo.streamingInput
                       Demo.ctx)).
Proof.
  exact (transmitter_holds_the_parse_calls (Demo.production Demo.doneThenMore)
           Demo.streamingInput Demo.ctx (Demo.dispatch "{}") eq_refl).
Defined.

Lemma error_stage_tells_the_failure_witness :
  In (EvError dispatch_parse
        (streamParseMessage "Openai" Demo.syntaxError (Demo.event "not-json")) true)
    (output (Demo.production Demo.brokenThenDone) Demo.streamingInput Demo.ctx) /\
  Attributed (Demo.production Demo.brokenThenDone) Demo.streamingInput Demo.ctx
    dispatch_parse (streamParseMessage "Openai" Demo.syntaxError (Demo.event "not-json")).
Proof.
  split; [find_in|].
  apply (error_stage_tells_the_failure (Demo.production Demo.brokenThenDone)
           Demo.streamingInput Demo.ctx dispatch_parse
           (streamParseMessage "Openai" Demo.syntaxError (Demo.event "not-json")) true).
  find_in.
Defined.

Lemma modes_do_not_mix_witness :
  streaming Demo.streamingInput = true /\ streaming Demo.wholeInput = false.
Proof.
  split.
  - apply (proj1 (modes_do_not_mix (Demo.production Demo.closingStream) Demo.streamingInput
                    Demo.ctx) (ActRead ReadDone)); [find_in|reflexivity].
  - apply (proj2 (modes_do_not_mix (Demo.production (Demo.bodyOf "fine")) Demo.wholeInput
                    Demo.ctx) (ActText (Returns "fine"%string))); [find_in|reflexivity].
Defined.

Lemma build_failure_run_witness :
  output (Demo.production Demo.noBody) Demo.noModel Demo.ctx
    = [EvStart;
       EvError dispatch_prepare
         (prepareMessage (Demo.production Demo.noBody) Demo.noModel
            {| error_name := Some "Error"%string;
               error_safeString := Some "No model"%string;
               error_cause := None |})
         false].
Proof.
  unfold output.
  rewrite (build_failure_run (Demo.production Demo.noBody) Demo.noModel Demo.ctx
             {| error_name := Some "Error"%string;
                error_safeString := Some "No model"%string;
                error_cause := None |} eq_refl).
  reflexivity.
Defined.

Lemma whole_body_read_failure_witness :
  output (Demo.production Demo.unreadable) Demo.wholeInput Demo.ctx
    = [EvStart;
       EvError dispatch_read
         (readMessage (Demo.production Demo.unreadable) Demo.wholeInput Demo.reset) false] /\
  transmitter_operations
    (partTransmitter (after (chatGenerateContent (Demo.production Demo.unreadable)
                               Demo.wholeInput Demo.ctx))) = [].
Proof.
  destruct (whole_body_read_failure (Demo.production Demo.unreadable) Demo.wholeInput
              Demo.ctx (Demo.dispatch "{}")
              {| response_body := None; response_text := Throws Demo.reset |} Demo.reset
              eq_refl eq_refl eq_refl eq_refl)
    as (_ & Hout & Hkept).
  split; [exact Hout|exact Hkept].
Defined.

Lemma termination_cause_tells_the_ending_witness :
  In (EvTermination event_done)
    (output (Demo.production Demo.doneThenMore) Demo.streamingInput Demo.ctx) /\
  streaming Demo.streamingInput = true /\
  ((event_done = dispatch_close /\
    In (ActRead ReadDone)
      (trace (Demo.production Demo.doneThenMore) Demo.streamingInput Demo.ctx))
   \/
   (event_done = event_done /\
    exists item,
      isDoneEvent item = true /\
      In (ActReceived (WireItem item))
        (trace (Demo.production Demo.doneThenMore) Demo.streamingInput Demo.ctx))).
Proof.
  split; [find_in|].
  apply (termination_cause_tells_the_ending (Demo.production Demo.doneThenMore)
           Demo.streamingInput Demo.ctx event_done).
  find_in.
Defined.

Lemma diagnostic_shows_the_fetched_body_witness :
  In (EvDebugClientPrint "{}")
    (output (Demo.world "development" Demo.closingStream) (Demo.input None true true)
       Demo.ctx) /\
  exists args,
    fetches (trace (Demo.world "development" Demo.closingStream) (Demo.input None true true)
               Demo.ctx) = [args] /\
    "{}"%string = JSON_stringify (Demo.world "development" Demo.closingStream)
                    (fetch_body args).
Proof.
  split; [find_in|].
  apply (diagnostic_shows_the_fetched_body (Demo.world "development" Demo.closingStream)
           (Demo.input None true true) Demo.ctx "{}"%string).
  find_in.
Defined.

Lemma surfaced_items_follow_the_batches_witness :
  exists unseen,
    concat (map snd (demuxesOf (trace (Demo.production Demo.brokenInBatch)
                               Demo.streamingInput Demo.ctx)))
      = surfaced (trace (Demo.production Demo.brokenInBatch) Demo.streamingInput Demo.ctx)
          ++ unseen /\
    (unseen = []
     \/ exists pre ending last,
          trace (Demo.production Demo.brokenInBatch) Demo.streamingInput Demo.ctx
            = pre ++ ending /\
          ItemEnding (prettyDialectOf (Demo.production Demo.brokenInBatch)
                        Demo.streamingInput) ending /\
          surfaced ending = [last]).
Proof.
  exact (surfaced_items_follow_the_batches (Demo.production Demo.brokenInBatch)
           Demo.streamingInput Demo.ctx).
Defined.

(** In that run one item of the batch stays unsurfaced, behind the message
    that did not parse. *)
Example broken_batch_is_cut :
  concat (map snd (demuxesOf (trace (Demo.production Demo.brokenInBatch)
                             Demo.streamingInput Demo.ctx)))
    = surfaced (trace (Demo.production Demo.brokenInBatch) Demo.streamingInput Demo.ctx)
        ++ [Demo.event "late"] /\
  parseCalls (trace (Demo.production Demo.brokenInBatch) Demo.streamingInput Demo.ctx)
    = [("Hi"%string, None); ("not-json"%string, None)].
Proof. split; reflexivity. Qed.

Lemma every_surfaced_event_is_parsed_once_witness :
  parseCalls (trace (Demo.production Demo.brokenInBatch) Demo.streamingInput Demo.ctx)
    = map callOf
        (filter parsable
           (surfaced (trace (Demo.production Demo.brokenInBatch) Demo.streamingInput
                        Demo.ctx))) /\
  quietCalls Demo.parse (newPartTransmitter "Openai")
    (removelast
       (parseCalls (trace (Demo.production Demo.brokenInBatch) Demo.streamingInput
                      Demo.ctx))).
Proof.
  exact (every_surfaced_event_is_parsed_once (Demo.production Demo.brokenInBatch)
           Demo.streamingInput Demo.ctx (Demo.dispatch "{}") eq_refl eq_refl).
Defined.
